(** * mlops-assignment: the training job and the serving endpoint

    A shallow embedding of [src/dags/train_pipeline.py] (the training job)
    and [src/api/main.py] (the serving endpoint).

    Layout:
    - [Py]: the Python values the two programs handle (exceptions, floats,
      [int()], POSIX paths, a file system);
    - [Pandas]: typed columns and data frames, with [drop] and item access;
    - [Sklearn]: [LabelEncoder.fit_transform];
    - [Train]: [load_data], [train_model], [train_and_save_model];
    - [Api]: module start-up, [health], [predict] and the request loop;
    - the theorems, one group per module. *)

From Stdlib Require Import ZArith List Ascii String Bool Lia.
From Stdlib.Strings Require Import Byte.
From Stdlib Require Import Sorted OrdersEx.
From Stdlib Require Import PrimFloat SpecFloat FloatOps.
From stdpp Require Import gmap strings.
Import ListNotations.

#[local] Open Scope Z_scope.
#[local] Open Scope string_scope.

(* ===================================================================== *)
(** * Python values *)
(* ===================================================================== *)

Module Py.

(** A raised exception: its class and what [str(e)] returns. Only
    instances of [Exception] are modelled; interpreter signals
    ([KeyboardInterrupt], [SystemExit]) are not raised by the code. *)
Record exn := Exn { exn_class : string; exn_str : string }.

(** The outcome of an expression: [inl e] when it raised [e]. *)
Definition result (A : Type) : Type := exn + A.

Definition ret {A} (a : A) : result A := inr a.
Definition raise {A} (e : exn) : result A := inl e.
Definition bind {A B} (m : result A) (k : A -> result B) : result B :=
  match m with
  | inl e => inl e
  | inr a => k a
  end.

Definition bytes := list byte.

(** ** Floats: IEEE 754 binary64, as Python's [float] *)

Definition float := PrimFloat.float.

(** The integer part of [(-1)^s * m * 2^e], rounded toward zero. *)
Definition trunc (s : bool) (m : positive) (e : Z) : Z :=
  let a := if (0 <=? e)%Z then Z.shiftl (Z.pos m) e
           else Z.shiftr (Z.pos m) (- e) in
  if s then - a else a.

(** The order NumPy sorts floats by: the IEEE order, with every NaN after
    every number and equal to every other NaN. *)
Definition sf_cmp (x y : spec_float) : comparison :=
  match x, y with
  | S754_nan, S754_nan => Eq
  | S754_nan, _ => Gt
  | _, S754_nan => Lt
  | _, _ => match SFcompare x y with
            | Some c => c
            | None => Eq
            end
  end.

Definition float_cmp (x y : float) : comparison :=
  sf_cmp (Prim2SF x) (Prim2SF y).

(** ** Scalars: what one cell of an array holds *)

Inductive scalar :=
| SBool (b : bool)
| SInt (z : Z)
| SFloat (f : float)
| SStr (s : string).

Fixpoint has_char (c : ascii) (s : string) : bool :=
  match s with
  | EmptyString => false
  | String c' s' => (Ascii.eqb c c' || has_char c s')%bool
  end.

Definition dquote : string := String "034"%char EmptyString.
Definition backslash : string := String "092"%char EmptyString.

Definition hex_digit (n : nat) : ascii :=
  ascii_of_nat (if (n <? 10)%nat then 48 + n else 87 + n).

(** One character inside [repr(s)], [q] being the quote chosen: the
    backslash, the quote and the control characters are escaped. *)
Definition repr_char (q c : ascii) : string :=
  let n := nat_of_ascii c in
  if Ascii.eqb c "092" then backslash +:+ backslash
  else if Ascii.eqb c q then backslash +:+ String q EmptyString
  else if (n =? 9)%nat then backslash +:+ "t"
  else if (n =? 10)%nat then backslash +:+ "n"
  else if (n =? 13)%nat then backslash +:+ "r"
  else if ((n <? 32) || (n =? 127))%nat
       then backslash +:+ "x"
            +:+ String (hex_digit (n / 16)) (String (hex_digit (n mod 16)) "")
       else String c EmptyString.

Fixpoint repr_chars (q : ascii) (s : string) : string :=
  match s with
  | EmptyString => EmptyString
  | String c s' => repr_char q c +:+ repr_chars q s'
  end.

(** [repr(s)] for a text [s] of ASCII and printable characters: double
    quotes when [s] holds a single quote and no double quote, single
    quotes otherwise. *)
Definition repr_str (s : string) : string :=
  let q := if (has_char "'" s && negb (has_char "034" s))%bool
           then "034"%char else "'"%char in
  String q (repr_chars q s) +:+ String q EmptyString.

(** [repr] of a list of such strings. *)
Fixpoint repr_items (l : list string) : string :=
  match l with
  | [] => ""
  | [s] => repr_str s
  | s :: l' => repr_str s +:+ ", " +:+ repr_items l'
  end.

Definition repr_list (l : list string) : string :=
  "[" +:+ repr_items l +:+ "]".

Definition ValueError (msg : string) : exn := Exn "ValueError" msg.
Definition OverflowError (msg : string) : exn := Exn "OverflowError" msg.
Definition IndexError (msg : string) : exn := Exn "IndexError" msg.
Definition FileNotFoundError (msg : string) : exn :=
  Exn "FileNotFoundError" msg.
Definition IsADirectoryError (msg : string) : exn :=
  Exn "IsADirectoryError" msg.
Definition NotADirectoryError (msg : string) : exn :=
  Exn "NotADirectoryError" msg.
Definition FileExistsError (msg : string) : exn :=
  Exn "FileExistsError" msg.
(** [str(KeyError(k))] is [repr(k)]. *)
Definition KeyError (key : string) : exn := Exn "KeyError" (repr_str key).

(** The builtin [int(x)] on a scalar of an array. What [int()] does with
    a text (which characters count as digits and blanks, how long a
    number may be) is the interpreter's: [int_of_str] stands for it. *)
Definition int_with (int_of_str : string -> result Z) (x : scalar)
  : result Z :=
  match x with
  | SBool b => ret (if b then 1 else 0)
  | SInt z => ret z
  | SFloat f =>
      match Prim2SF f with
      | S754_nan => raise (ValueError "cannot convert float NaN to integer")
      | S754_infinity _ =>
          raise (OverflowError "cannot convert float infinity to integer")
      | S754_zero _ => ret 0
      | S754_finite s m e => ret (trunc s m e)
      end
  | SStr s => int_of_str s
  end.

(** ** POSIX paths ([os.path]) *)

Definition is_abs (p : string) : bool :=
  match p with
  | String "/" _ => true
  | _ => false
  end.

Fixpoint ends_with_slash (p : string) : bool :=
  match p with
  | EmptyString => false
  | String c EmptyString => Ascii.eqb c "/"
  | String _ p' => ends_with_slash p'
  end.

(** [os.path.join(a, b)]. *)
Definition join (a b : string) : string :=
  if is_abs b then b
  else if (String.eqb a "" || ends_with_slash a)%bool then a +:+ b
       else a +:+ "/" +:+ b.

(** The characters of [p] up to and including its last slash
    ([p[:p.rfind('/') + 1]]). *)
Fixpoint head_of (p : string) : string :=
  match p with
  | EmptyString => EmptyString
  | String c p' =>
      let h := head_of p' in
      if (Ascii.eqb c "/" || negb (String.eqb h ""))%bool then String c h
      else EmptyString
  end.

Fixpoint all_slashes (p : string) : bool :=
  match p with
  | EmptyString => true
  | String c p' => (Ascii.eqb c "/" && all_slashes p')%bool
  end.

Fixpoint rstrip_slashes (p : string) : string :=
  match p with
  | EmptyString => EmptyString
  | String c p' =>
      let r := rstrip_slashes p' in
      if (Ascii.eqb c "/" && String.eqb r "")%bool then EmptyString
      else String c r
  end.

(** [os.path.dirname(p)]. *)
Definition dirname (p : string) : string :=
  let h := head_of p in
  if all_slashes h then h else rstrip_slashes h.

(** The directories [os.makedirs(p)] walks through: [p] and its ancestors,
    outermost first, the root and the empty path left out. *)
Fixpoint ancestors (fuel : nat) (p : string) : list string :=
  match fuel with
  | O => []
  | S fuel' =>
      if (String.eqb p "" || all_slashes p)%bool then []
      else ancestors fuel' (dirname p) ++ [p]
  end.

(** ** The file system: regular files by absolute path, and directories.
    A path holds a file or a directory only where the directories
    leading to it exist. *)

Record fs := Fs { files : gmap string bytes; dirs : gset string }.

Definition isfile (p : string) (f : fs) : bool :=
  bool_decide (is_Some (files f !! p)).

(** [os.path.isdir(p)]: the root always exists. *)
Definition isdir (p : string) (f : fs) : bool :=
  ((negb (String.eqb p "") && all_slashes p)
   || bool_decide (p ∈ dirs f))%bool.

(** [os.path.exists(p)]. *)
Definition path_exists (p : string) (f : fs) : bool :=
  (isfile p f || isdir p f)%bool.

Definition errno_msg (what p : string) : string :=
  what +:+ ": " +:+ repr_str p.

(** Whether a regular file stands where one of the directories leading
    to [p] should be. *)
Definition blocked (p : string) (f : fs) : bool :=
  existsb (fun d => isfile d f) (ancestors (String.length p) (dirname p)).

(** The error of [open(name)] when nothing exists at [p], the place
    [name] resolves to: [ENOTDIR] when a regular file stands in the way,
    [ENOENT] otherwise. *)
Definition open_error (name p : string) (f : fs) : exn :=
  if blocked p f
  then NotADirectoryError (errno_msg "[Errno 20] Not a directory" name)
  else FileNotFoundError
         (errno_msg "[Errno 2] No such file or directory" name).

(** [open(name, 'rb').read()], [name] resolving to [p]: errors name the
    path as it was given. *)
Definition read_named (name p : string) (f : fs) : result bytes :=
  match files f !! p with
  | Some b => ret b
  | None =>
      if isdir p f
      then raise (IsADirectoryError
                    (errno_msg "[Errno 21] Is a directory" name))
      else raise (open_error name p f)
  end.

(** [open(p, 'rb').read()] for an absolute [p]. *)
Definition read_bytes (p : string) (f : fs) : result bytes :=
  read_named p p f.

(** [open(p, 'wb').write(b)]: the file is created or replaced; its
    directory must exist (an empty [dirname] is the working directory). *)
Definition write_bytes (p : string) (b : bytes) (f : fs) : result fs :=
  if isdir p f
  then raise (IsADirectoryError (errno_msg "[Errno 21] Is a directory" p))
  else if (String.eqb (dirname p) "" || isdir (dirname p) f)%bool
       then ret (Fs (<[p := b]> (files f)) (dirs f))
       else raise (open_error p p f).

(** The [os.mkdir] calls of [os.makedirs(leaf, exist_ok=True)] along [ds],
    outermost directory first: a directory that exists is kept; a regular
    file in the way makes the [mkdir] below it fail, or the last one when
    the file is [leaf] itself. *)
Fixpoint mkdirs (ds : list string) (f : fs) : result fs :=
  match ds with
  | [] => ret f
  | d :: ds' =>
      if isfile d f
      then raise (match ds' with
                  | [] => FileExistsError
                            (errno_msg "[Errno 17] File exists" d)
                  | child :: _ =>
                      NotADirectoryError
                        (errno_msg "[Errno 20] Not a directory" child)
                  end)
      else mkdirs ds' (Fs (files f) ({[d]} ∪ dirs f))
  end.

(** [os.makedirs(p, exist_ok=True)]. *)
Definition makedirs (p : string) (f : fs) : result fs :=
  mkdirs (ancestors (String.length p) p) f.

End Py.


(* ===================================================================== *)
(** * pandas: typed columns and data frames *)
(* ===================================================================== *)

Module Pandas.
Import Py.

(** A column (or a one-dimensional array) has one dtype. These are the
    columns [pd.read_csv] makes: [bool], [int64] and [float64] (numbers
    with missing cells are [float64], the missing cells NaN), and
    [object] holding strings, or strings and NaN where cells are missing,
    or booleans and NaN where cells are missing. *)
Inductive column :=
| BoolCol (xs : list bool)
| IntCol (xs : list Z)
| FloatCol (xs : list float)
| StrCol (xs : list string)
| StrNaCol (xs : list (option string))
| BoolNaCol (xs : list (option bool)).

Definition col_len (c : column) : nat :=
  match c with
  | BoolCol xs => length xs
  | IntCol xs => length xs
  | FloatCol xs => length xs
  | StrCol xs => length xs
  | StrNaCol xs => length xs
  | BoolNaCol xs => length xs
  end.

(** A cell of an [object] column: [None] is a missing cell, which holds
    the float NaN. *)
Definition cell {A : Type} (inj : A -> scalar) (x : option A) : scalar :=
  match x with
  | Some a => inj a
  | None => SFloat PrimFloat.nan
  end.

Definition values (c : column) : list scalar :=
  match c with
  | BoolCol xs => map SBool xs
  | IntCol xs => map SInt xs
  | FloatCol xs => map SFloat xs
  | StrCol xs => map SStr xs
  | StrNaCol xs => map (cell SStr) xs
  | BoolNaCol xs => map (cell SBool) xs
  end.

(** Whether the column's dtype is [object]. *)
Definition is_object (c : column) : bool :=
  match c with
  | StrCol _ | StrNaCol _ | BoolNaCol _ => true
  | BoolCol _ | IntCol _ | FloatCol _ => false
  end.

(** [a[0]] on a one-dimensional array. *)
Definition item0 (c : column) : result scalar :=
  match values c with
  | v :: _ => ret v
  | [] => raise (IndexError
                   "index 0 is out of bounds for axis 0 with size 0")
  end.

(** A data frame: its columns, in order, by name. *)
Definition DataFrame := list (string * column).

Definition columns (df : DataFrame) : list string := map fst df.

(** [name in df.columns]. *)
Definition has_column (name : string) (df : DataFrame) : bool :=
  existsb (String.eqb name) (columns df).

(** [df.shape]. *)
Definition shape (df : DataFrame) : nat * nat :=
  (match df with
   | (_, c) :: _ => col_len c
   | [] => O
   end, length df).

(** [df[name]]. *)
Fixpoint getitem (df : DataFrame) (name : string) : result column :=
  match df with
  | [] => raise (KeyError name)
  | (n, c) :: df' => if String.eqb n name then ret c else getitem df' name
  end.

(** [df[name] = c]: an existing column is replaced where it stands, a new
    one is appended. *)
Fixpoint setitem (df : DataFrame) (name : string) (c : column) : DataFrame :=
  match df with
  | [] => [(name, c)]
  | (n, c') :: df' =>
      if String.eqb n name then (n, c) :: df'
      else (n, c') :: setitem df' name c
  end.

Definition mem (name : string) (l : list string) : bool :=
  existsb (String.eqb name) l.

(** [df.drop(columns=labels)] with the default [errors='raise']: every
    label must name a column. *)
Definition drop (df : DataFrame) (labels : list string) : result DataFrame :=
  match List.filter (fun l => negb (has_column l df)) labels with
  | [] => ret (List.filter (fun nc => negb (mem (fst nc) labels)) df)
  | missing => raise (KeyError (repr_list missing +:+ " not found in axis"))
  end.

(** [pd.DataFrame([row])] for one dict [row]: one column per key, in the
    dict's insertion order, each holding the one value. *)
Definition singleton_column (v : scalar) : column :=
  match v with
  | SBool b => BoolCol [b]
  | SInt z => IntCol [z]
  | SFloat f => FloatCol [f]
  | SStr s => StrCol [s]
  end.

Definition of_row (row : list (string * scalar)) : DataFrame :=
  map (fun kv => (fst kv, singleton_column (snd kv))) row.

End Pandas.

(* ===================================================================== *)
(** * scikit-learn: the label encoder *)
(* ===================================================================== *)

Module Sklearn.
Import Py Pandas.

Section LabelEncoder.
Context {L : Type} (cmp : L -> L -> comparison).

(** Insertion into an ascending list without repeats. *)
Fixpoint insert_unique (x : L) (l : list L) : list L :=
  match l with
  | [] => [x]
  | y :: l' =>
      match cmp x y with
      | Lt => x :: l
      | Eq => l
      | Gt => y :: insert_unique x l'
      end
  end.

(** [np.unique(xs)]: the distinct values of [xs], ascending. This is
    what [LabelEncoder.fit] stores in [classes_]. *)
Definition unique (xs : list L) : list L :=
  fold_right insert_unique [] xs.

(** [np.searchsorted(classes, x)]: how many classes are below [x]. *)
Fixpoint searchsorted (classes : list L) (x : L) : Z :=
  match classes with
  | [] => 0
  | y :: l =>
      match cmp x y with
      | Gt => 1 + searchsorted l x
      | _ => 0
      end
  end.

(** [LabelEncoder().fit_transform(xs)]: each value is replaced by its
    position in [classes_]. *)
Definition encode (xs : list L) : list Z :=
  map (searchsorted (unique xs)) xs.
End LabelEncoder.

(** The order of the cells of an [object] column: the values in their
    own order, then the missing cells, all equal. *)
Definition option_cmp {A : Type} (cmp : A -> A -> comparison)
    (x y : option A) : comparison :=
  match x, y with
  | Some a, Some b => cmp a b
  | Some _, None => Lt
  | None, Some _ => Gt
  | None, None => Eq
  end.

(** The codes of a column's labels, by the column's dtype: booleans with
    [False] first, integers by value, floats in NumPy's order with NaN
    last, strings lexicographically by code point, missing cells last. *)
Definition label_codes (c : column) : list Z :=
  match c with
  | BoolCol xs => encode Bool.compare xs
  | IntCol xs => encode Z.compare xs
  | FloatCol xs => encode float_cmp xs
  | StrCol xs => encode String_as_OT.compare xs
  | StrNaCol xs => encode (option_cmp String_as_OT.compare) xs
  | BoolNaCol xs => encode (option_cmp Bool.compare) xs
  end.

(** The array the encoder returns for the codes of column [c]: [int64],
    except that for an [object] column without rows it is the empty
    [float64] array ([np.array([])]). *)
Definition codes_column (c : column) (codes : list Z) : column :=
  if (is_object c && Nat.eqb (col_len c) 0)%bool then FloatCol []
  else IntCol codes.

(** [LabelEncoder().fit_transform(col)]. *)
Definition fit_transform (c : column) : column :=
  codes_column c (label_codes c).

End Sklearn.

(* ===================================================================== *)
(** * Code that raises and changes a state *)
(* ===================================================================== *)

Module Eff.
Import Py.

(** A computation over a state [S]: it returns or raises, and leaves a
    state either way. *)
Definition M (S A : Type) : Type := S -> result A * S.

Definition pure {S A} (a : A) : M S A := fun s => (inr a, s).

Definition seq {S A B} (m : M S A) (k : A -> M S B) : M S B :=
  fun s =>
    match m s with
    | (inl e, s') => (inl e, s')
    | (inr a, s') => k a s'
    end.

(** A pure expression that may raise. *)
Definition lift {S A} (r : result A) : M S A := fun s => (r, s).

End Eff.

Declare Scope eff_scope.
Delimit Scope eff_scope with eff.
Notation "x <- m ;; k" := (Eff.seq m (fun x => k))
  (at level 100, m at next level, right associativity) : eff_scope.
Notation "m ;;; k" := (Eff.seq m (fun _ => k))
  (at level 100, right associativity) : eff_scope.

(* ===================================================================== *)
(** * The training job: src/dags/train_pipeline.py *)
(* ===================================================================== *)

Module Train.
Import Py Pandas Sklearn Eff.
#[local] Open Scope eff_scope.

Definition DATA_PATH : string := "/opt/airflow/data/dataset.csv".
Definition MODEL_PATH : string := "/opt/airflow/models/model.pkl".

(** The libraries the job calls into, outside this repository. *)
Class Libs := {
  (** a fitted [LogisticRegression] *)
  Estimator : Type;
  (** [chardet.detect(raw)['encoding']], [None] when nothing is detected *)
  chardet_detect : bytes -> option string;
  (** [pd.read_csv] on the file's bytes with the given encoding *)
  read_csv : bytes -> option string -> result DataFrame;
  (** [LogisticRegression(max_iter=n).fit(X, y)] *)
  LogisticRegression_fit : Z -> DataFrame -> column -> result Estimator;
  (** the bytes [joblib.dump] writes for a model *)
  joblib_dump : Estimator -> bytes
}.

(** One [logging] record: the format and its arguments. *)
Inductive log_arg :=
| AStr (s : string)
| AShape (shape : nat * nat).

Record log_record := Info { log_msg : string; log_args : list log_arg }.

(** A line on the standard output: one that [print] wrote, or the line
    the console handler wrote for a log record (with the time and place
    the handler's format adds). *)
Inductive out_line :=
| Printed (line : string)
| Logged (record : log_record).

(** What the job can read and change. *)
Record world := World {
  w_fs : fs;
  w_log : list log_record;
  w_stdout : list out_line
}.

(** [logging.info(msg, *args)]: importing [airflow] (line 1) has
    configured the root logger at level INFO with a console handler on
    the standard output, so the record is also written there. *)
Definition logging_info (msg : string) (args : list log_arg) : M world unit :=
  fun w => (inr tt,
            World (w_fs w) (w_log w ++ [Info msg args])
              (w_stdout w ++ [Logged (Info msg args)])).

Definition print (line : string) : M world unit :=
  fun w => (inr tt, World (w_fs w) (w_log w) (w_stdout w ++ [Printed line])).

Definition open_read (p : string) : M world bytes :=
  fun w => (read_bytes p (w_fs w), w).

(** A file-system call: the file system changes only when it succeeds. *)
Definition fs_call (op : fs -> result fs) : M world unit :=
  fun w =>
    match op (w_fs w) with
    | inl e => (inl e, w)
    | inr f => (inr tt, World f (w_log w) (w_stdout w))
    end.

Section Job.
Context {libs : Libs}.

Definition pd_read_csv (p : string) (encoding : option string)
  : M world DataFrame :=
  raw <- open_read p ;;
  lift (read_csv raw encoding).

(** Lines 25-28 of [load_data]. *)
Definition encode_categorical (df : DataFrame) : M world DataFrame :=
  if has_column "smoker" df then
    col <- lift (getitem df "smoker") ;;
    let df := setitem df "smoker" (fit_transform col) in
    logging_info "Categorical encoding applied" [] ;;;
    pure df
  else pure df.

Definition load_data : M world DataFrame :=
  logging_info "Loading data from %s" [AStr DATA_PATH] ;;;
  raw <- open_read DATA_PATH ;;
  let encoding := chardet_detect raw in
  df <- pd_read_csv DATA_PATH encoding ;;
  logging_info "Data loaded successfully. Shape: %s" [AShape (shape df)] ;;;
  encode_categorical df.

Definition train_model (df : DataFrame) : M world Estimator :=
  logging_info "Training model" [] ;;;
  X <- lift (drop df ["target"; "patient_id"]) ;;
  y <- lift (getitem df "target") ;;
  model <- lift (LogisticRegression_fit 1000 X y) ;;
  logging_info "Model trained successfully" [] ;;;
  pure model.

Definition train_and_save_model : M world unit :=
  df <- load_data ;;
  model <- train_model df ;;
  fs_call (makedirs (dirname MODEL_PATH)) ;;;
  fs_call (write_bytes MODEL_PATH (joblib_dump model)) ;;;
  logging_info "Model saved to %s" [AStr MODEL_PATH] ;;;
  print "Model saved successfully!".
End Job.

End Train.

(* ===================================================================== *)
(** * The serving endpoint: src/api/main.py *)
(* ===================================================================== *)

Module Api.
Import Py Pandas Eff.
#[local] Open Scope eff_scope.

Definition MODEL_PATH : string := "models/model.pkl".

(** What the endpoint calls into, outside this repository: the object
    [joblib.load] returns and its two methods (a method call returns or
    raises and may change the object), and the builtin [int()] on a
    text. *)
Class Libs := {
  ModelObj : Type;
  joblib_load : bytes -> result ModelObj;
  model_predict : DataFrame -> M ModelObj column;
  model_predict_proba : DataFrame -> M ModelObj (list (list float));
  int_of_str : string -> result Z
}.

(** A request body that passed the schema layer. *)
Record PredictionRequest := {
  age : float;
  bmi : float;
  blood_pressure : float;
  cholesterol : float;
  glucose : float;
  smoker : Z
}.

(** The values a handler returns. *)
#[local] Unset Elimination Schemes.
Inductive json :=
| JInt (z : Z)
| JFloat (f : float)
| JStr (s : string)
| JList (l : list json)
| JObj (fields : list (string * json)).
#[local] Set Elimination Schemes.

(** [HTTPException(status_code, detail)]. *)
Record HTTPException := { status_code : Z; detail : string }.

(** How a handler ends: with a value, or with an [HTTPException]. *)
Definition outcome : Type := HTTPException + json.

Record Response := { status : Z; body : json }.

(** A float JSON can hold: NaN and the infinities are not. *)
Definition is_finite (f : float) : bool :=
  match Prim2SF f with
  | S754_nan | S754_infinity _ => false
  | S754_zero _ | S754_finite _ _ _ => true
  end.

(** Whether [json.dumps(v, allow_nan=False)] accepts the value. *)
Fixpoint json_compliant (v : json) : bool :=
  match v with
  | JInt _ | JStr _ => true
  | JFloat f => is_finite f
  | JList l => forallb json_compliant l
  | JObj fields => forallb (fun kv => json_compliant (snd kv)) fields
  end.

(** The answer to an exception no handler caught, and to a returned
    value that cannot be encoded: status 500 with the plain text
    [Internal Server Error]. *)
Definition internal_server_error : Response :=
  {| status := 500; body := JStr "Internal Server Error" |}.

(** FastAPI's part: a returned value is encoded as JSON and sent with
    status 200, unless it holds a float JSON cannot hold; an
    [HTTPException] is sent with its status and its detail. *)
Definition respond (o : outcome) : Response :=
  match o with
  | inr v => if json_compliant v then {| status := 200; body := v |}
             else internal_server_error
  | inl h => {| status := status_code h;
                body := JObj [("detail", JStr (detail h))] |}
  end.

(** The process: its working directory and the file system it sees. *)
Record env := { cwd : string; disk : fs }.

(** [a[0]] on a two-dimensional array. *)
Definition row0 (a : list (list float)) : result (list float) :=
  match a with
  | r :: _ => ret r
  | [] => raise (IndexError
                   "index 0 is out of bounds for axis 0 with size 0")
  end.

Section App.
Context {libs : Libs}.

(** The module's globals once it is imported. *)
Record App := { model : ModelObj }.

(** Importing the module (lines 9-15): the relative [MODEL_PATH] is
    resolved against the working directory. *)
Definition import_main (e : env) : result App :=
  let path := join (cwd e) MODEL_PATH in
  if negb (path_exists path (disk e))
  then raise (FileNotFoundError
                ("Model file not found at " +:+ MODEL_PATH))
  else bind (read_named MODEL_PATH path (disk e)) (fun blob =>
       bind (joblib_load blob) (fun m =>
       ret {| model := m |})).

(** The builtin [int(x)]. *)
Definition int (x : scalar) : result Z := int_with int_of_str x.

(** The dict built at lines 33-40. *)
Definition data (request : PredictionRequest) : list (string * scalar) :=
  [ ("age", SFloat (age request));
    ("bmi", SFloat (bmi request));
    ("blood_pressure", SFloat (blood_pressure request));
    ("cholesterol", SFloat (cholesterol request));
    ("glucose", SFloat (glucose request));
    ("smoker", SInt (smoker request)) ].

(** The body of the [try] (lines 32-50). *)
Definition predict_body (request : PredictionRequest) : M ModelObj json :=
  let df := of_row (data request) in
  predictions <- model_predict df ;;
  prediction <- lift (item0 predictions) ;;
  probabilities <- model_predict_proba df ;;
  row <- lift (row0 probabilities) ;;
  let probability := map JFloat row in
  z <- lift (int prediction) ;;
  pure (JObj [("prediction", JInt z);
              ("probability", JList probability)]).

(** A handler: its outcome and the model object it leaves. *)
Definition handler : Type := ModelObj -> outcome * ModelObj.

(** [health] (lines 25-27). *)
Definition health : handler :=
  fun s => (inr (JObj [("status", JStr "healthy")]), s).

(** [predict]: [except Exception as e] turns the exception into
    [HTTPException(status_code=500, detail=str(e))]. *)
Definition predict (request : PredictionRequest) : handler :=
  fun s =>
    match predict_body request s with
    | (inr v, s') => (inr v, s')
    | (inl e, s') =>
        (inl {| status_code := 500; detail := exn_str e |}, s')
    end.

Inductive http_request :=
| GET_health
| POST_predict (request : PredictionRequest).

Definition route (rq : http_request) : handler :=
  match rq with
  | GET_health => health
  | POST_predict request => predict request
  end.

(** Serving requests one after the other, on one model object. *)
Fixpoint serve (rqs : list http_request) (s : ModelObj)
  : list Response * ModelObj :=
  match rqs with
  | [] => ([], s)
  | rq :: rqs' =>
      let (o, s') := route rq s in
      let (rs, s'') := serve rqs' s' in
      (respond o :: rs, s'')
  end.

(** The process from start-up: it answers requests only once the module
    is imported. *)
Definition run (e : env) (rqs : list http_request)
  : result (list Response) :=
  bind (import_main e) (fun app => ret (fst (serve rqs (model app)))).
End App.

End Api.

(* ===================================================================== *)
(** * The serving endpoint: theorems *)
(* ===================================================================== *)

Module ServingSpec.
Import Py Pandas Eff Api.


(** What the handlers send. *)
Definition healthy : Response :=
  {| status := 200; body := JObj [("status", JStr "healthy")] |}.


Definition server_error (msg : string) : Response :=
  {| status := 500; body := JObj [("detail", JStr msg)] |}.



(** ** A stand-in for [int()] on a text

    The models below need the builtin on the labels they predict. This
    one reads ASCII text as [int()] does when the number has at most
    4300 digits: optional blanks, an optional sign, decimal digits in
    groups separated by single underscores. Text with other characters
    is outside it. *)

Definition is_space (c : ascii) : bool :=
  let n := nat_of_ascii c in
  ((9 <=? n)%nat && (n <=? 13)%nat) || ((28 <=? n)%nat && (n <=? 32)%nat).

Definition digit_of (c : ascii) : option Z :=
  let n := nat_of_ascii c in
  if ((48 <=? n)%nat && (n <=? 57)%nat)%bool then Some (Z.of_nat n - 48)
  else None.

Fixpoint lstrip (s : list ascii) : list ascii :=
  match s with
  | c :: s' => if is_space c then lstrip s' else s
  | [] => []
  end.

Definition strip (s : list ascii) : list ascii :=
  rev (lstrip (rev (lstrip s))).

(** [digits acc after_digit s]: [after_digit] tells whether the previous
    character was a digit (an underscore is legal only between digits). *)
Fixpoint digits (acc : Z) (after_digit : bool) (s : list ascii) : option Z :=
  match s with
  | [] => if after_digit then Some acc else None
  | c :: s' =>
      match digit_of c with
      | Some d => digits (10 * acc + d) true s'
      | None =>
          if (Ascii.eqb c "_" && after_digit)%bool then digits acc false s'
          else None
      end
  end.

Definition parse_int (s : string) : option Z :=
  match strip (list_ascii_of_string s) with
  | "-"%char :: s' => option_map Z.opp (digits 0 false s')
  | "+"%char :: s' => digits 0 false s'
  | s' => digits 0 false s'
  end.

Definition int_of_ascii (s : string) : result Z :=
  match parse_int s with
  | Some z => ret z
  | None =>
      raise (ValueError
               ("invalid literal for int() with base 10: " +:+ repr_str s))
  end.

(** ** Models

    A model with string class labels, as a classifier fitted on a
    [target] column of strings has. *)
Definition string_label_model : Libs :=
  {| ModelObj := unit;
     joblib_load := fun _ => inr tt;
     model_predict := fun _ s => (inr (StrCol ["sick"]), s);
     model_predict_proba :=
       fun _ s => (inr [[0.25%float; 0.75%float]], s);
     int_of_str := int_of_ascii |}.

(** A model object that changes with every call: it predicts class 0 and
    class 1 in turn. *)
Definition alternating_model : Libs :=
  {| ModelObj := bool;
     joblib_load := fun _ => inr false;
     model_predict :=
       fun _ b => (inr (IntCol [if b then 1 else 0]), negb b);
     model_predict_proba :=
       fun _ b => (inr [[0.5%float; 0.5%float]], b);
     int_of_str := int_of_ascii |}.

(** A model that never changes: class 1 for smokers, class 0 otherwise. *)
Definition smoker_model : Libs :=
  {| ModelObj := unit;
     joblib_load := fun _ => inr tt;
     model_predict :=
       fun df s =>
         (match getitem df "smoker" with
          | inr (IntCol [1]) => inr (IntCol [1])
          | inr _ => inr (IntCol [0])
          | inl e => inl e
          end, s);
     model_predict_proba :=
       fun _ s => (inr [[0.25%float; 0.75%float]], s);
     int_of_str := int_of_ascii |}.

Definition request0 : PredictionRequest :=
  {| age := 45%float; bmi := 0x1.c19999999999ap+4%float (* 28.1 *);
     blood_pressure := 130%float;
     cholesterol := 210%float; glucose := 95%float; smoker := 1 |}.

Section WithModel.
Context {libs : Libs}.


(** The model's methods leave the model object as it is. *)
Definition read_only : Prop :=
  forall df s,
    snd (model_predict df s) = s /\ snd (model_predict_proba df s) = s.

(** Where an exception can come from inside the [try] of [predict]:
    [raised request s e s'] says that, started on the model object [s],
    the body raises [e] and leaves the object [s']. *)
Inductive raised (request : PredictionRequest) (s : ModelObj)
  : exn -> ModelObj -> Prop :=
| predict_raises e s1 :
    model_predict (of_row (data request)) s = (inl e, s1) ->
    raised request s e s1
| prediction_missing preds e s1 :
    model_predict (of_row (data request)) s = (inr preds, s1) ->
    item0 preds = inl e ->
    raised request s e s1
| predict_proba_raises preds p e s1 s2 :
    model_predict (of_row (data request)) s = (inr preds, s1) ->
    item0 preds = inr p ->
    model_predict_proba (of_row (data request)) s1 = (inl e, s2) ->
    raised request s e s2
| probability_missing preds p probs e s1 s2 :
    model_predict (of_row (data request)) s = (inr preds, s1) ->
    item0 preds = inr p ->
    model_predict_proba (of_row (data request)) s1 = (inr probs, s2) ->
    row0 probs = inl e ->
    raised request s e s2
| int_raises preds p probs row e s1 s2 :
    model_predict (of_row (data request)) s = (inr preds, s1) ->
    item0 preds = inr p ->
    model_predict_proba (of_row (data request)) s1 = (inr probs, s2) ->
    row0 probs = inr row ->
    int p = inl e ->
    raised request s e s2.

Lemma raised_body request s e s' :
  raised request s e s' -> predict_body request s = (inl e, s').
Proof.
  unfold predict_body, seq, lift.
  destruct 1 as [e s1 H1|preds e s1 H1 H2|preds p e s1 s2 H1 H2 H3
                |preds p probs e s1 s2 H1 H2 H3 H4
                |preds p probs row e s1 s2 H1 H2 H3 H4 H5];
    rewrite H1; try rewrite H2; try rewrite H3; try rewrite H4;
    try rewrite H5; reflexivity.
Qed.

Lemma body_raised request s e s' :
  predict_body request s = (inl e, s') -> raised request s e s'.
Proof.
  unfold predict_body, seq, lift.
  destruct (model_predict (of_row (data request)) s) as [[e1|preds] s1] eqn:H1.
  { intros [= <- <-]. now apply predict_raises. }
  destruct (item0 preds) as [e2|p] eqn:H2.
  { intros [= <- <-]. eapply prediction_missing; eauto. }
  destruct (model_predict_proba (of_row (data request)) s1)
    as [[e3|probs] s2] eqn:H3.
  { intros [= <- <-]. eapply predict_proba_raises; eauto. }
  destruct (row0 probs) as [e4|row] eqn:H4.
  { intros [= <- <-]. eapply probability_missing; eauto. }
  destruct (int p) as [e5|z] eqn:H5.
  { intros [= <- <-]. eapply int_raises; eauto. }
  discriminate.
Qed.


(** X15: [predict] ends in one of two ways: the full answer, or a 500 for an
    exception of the body; it never returns part of an answer. *)
Lemma predict_answers_200_or_500 request s :
  (exists z row s',
      predict request s
      = (inr (JObj [("prediction", JInt z);
                    ("probability", JList (map JFloat row))]), s'))
  \/ (exists e s',
         raised request s e s'
         /\ predict request s
            = (inl {| status_code := 500; detail := exn_str e |}, s')).
Proof.
  destruct (predict_body request s) as [[e|v] s'] eqn:Hb.
  - right. exists e, s'. split; [now apply body_raised|].
    unfold predict. now rewrite Hb.
  - left. unfold predict. rewrite Hb. revert Hb.
    unfold predict_body, seq, lift, pure.
    destruct (model_predict _ s) as [[?|preds] s1]; [discriminate|].
    destruct (item0 preds) as [?|p]; [discriminate|].
    destruct (model_predict_proba _ s1) as [[?|probs] s2]; [discriminate|].
    destruct (row0 probs) as [?|row]; [discriminate|].
    destruct (int p) as [?|z]; [discriminate|].
    intros [= <- <-]. now exists z, row, s2.
Qed.

Lemma serve_length rqs : forall s, length (fst (serve rqs s)) = length rqs.
Proof.
  induction rqs as [|rq rqs IH]; intros s; simpl; [reflexivity|].
  destruct (route rq s) as [o s1]. specialize (IH s1).
  destruct (serve rqs s1) as [rs s2]. simpl in *. now rewrite IH.
Qed.

Lemma serve_cons rq rqs s :
  serve (rq :: rqs) s
  = (respond (fst (route rq s)) :: fst (serve rqs (snd (route rq s))),
     snd (serve rqs (snd (route rq s)))).
Proof.
  simpl. destruct (route rq s) as [o s1]. simpl.
  now destruct (serve rqs s1).
Qed.

Lemma predict_keeps_model :
  read_only -> forall request s, snd (predict request s) = s.
Proof.
  intros RO request s. unfold predict, predict_body, seq, lift.
  pose proof (RO (of_row (data request)) s) as [Hp _].
  destruct (model_predict (of_row (data request)) s) as [[e|preds] s1];
    simpl in Hp; subst s1; [reflexivity|].
  destruct (item0 preds); [reflexivity|].
  pose proof (RO (of_row (data request)) s) as [_ Hq].
  destruct (model_predict_proba (of_row (data request)) s) as [[e|probs] s2];
    simpl in Hq; subst s2; [reflexivity|].
  destruct (row0 probs); [reflexivity|].
  now destruct (int _).
Qed.

Lemma serve_keeps_model :
  read_only -> forall rqs s, snd (serve rqs s) = s.
Proof.
  intros RO rqs. induction rqs as [|rq rqs IH]; intros s; [reflexivity|].
  rewrite serve_cons. simpl. rewrite IH.
  destruct rq; [reflexivity|]. now apply predict_keeps_model.
Qed.

(** C2: when no model artifact exists at the fixed path at start-up,
    importing the module raises [FileNotFoundError] and the process
    answers no request at all, however many arrive; there is no retry
    and no default model. Whenever the process does answer requests,
    the model it serves with is the one deserialized from the file at
    that path. *)
Theorem startup_without_artifact_is_fatal (e : env) :
  path_exists (join (cwd e) MODEL_PATH) (disk e) = false ->
  import_main e
  = inl (FileNotFoundError "Model file not found at models/model.pkl")
  /\ (forall rqs,
        run e rqs
        = inl (FileNotFoundError
                 "Model file not found at models/model.pkl"))
  /\ (forall e' rqs rs,
        run e' rqs = inr rs ->
        exists blob m,
          files (disk e') !! join (cwd e') MODEL_PATH = Some blob
          /\ joblib_load blob = inr m
          /\ rs = fst (serve rqs m)).
Proof.
  intros Hmissing.
  assert (Himp : import_main e
                 = inl (FileNotFoundError
                          "Model file not found at models/model.pkl")).
  { unfold import_main. now rewrite Hmissing. }
  split; [exact Himp|]. split.
  - intros rqs. unfold run. now rewrite Himp.
  - intros e' rqs rs. unfold run, import_main, read_named.
    destruct (path_exists _ (disk e')); cbn [negb bind raise];
      [|discriminate].
    destruct (files (disk e') !! join (cwd e') MODEL_PATH) as [blob|] eqn:Hf.
    + cbn [bind ret].
      destruct (joblib_load blob) as [err|m] eqn:Hl; cbn [bind ret].
      * discriminate.
      * intros [= <-]. now exists blob, m.
    + destruct (isdir _ _); discriminate.
Qed.




(** C6: whatever exception the body of the [try] raises (from either
    model call, from taking the first prediction or probability row, or
    from [int()]), [predict] answers HTTP 500 whose detail is exactly
    [str(e)], returns no prediction, and the process goes on to answer
    every request that follows. *)
Theorem predict_failure_is_http_500 request s e s' :
  raised request s e s' ->
  predict request s
  = (inl {| status_code := 500; detail := exn_str e |}, s')
  /\ respond (fst (predict request s)) = server_error (exn_str e)
  /\ forall rqs,
       fst (serve (POST_predict request :: rqs) s)
       = server_error (exn_str e) :: fst (serve rqs s')
       /\ length (fst (serve rqs s')) = length rqs.
Proof.
  intros Hr. apply raised_body in Hr.
  assert (Hp : predict request s
               = (inl {| status_code := 500; detail := exn_str e |}, s')).
  { unfold predict. now rewrite Hr. }
  split; [exact Hp|]. split; [now rewrite Hp|].
  intros rqs. split; [|apply serve_length].
  rewrite serve_cons. simpl. now rewrite Hp.
Qed.

(** C8: with a model whose methods leave it unchanged, [predict] gives
    the same outcome for the same record every time it is called,
    whatever requests were served in between, and the model object
    stays the one that was loaded. *)
Theorem predict_is_deterministic request between s :
  read_only ->
  fst (predict request (snd (serve between (snd (predict request s)))))
  = fst (predict request s)
  /\ snd (serve (POST_predict request :: between
                 ++ [POST_predict request])%list s) = s.
Proof.
  intros RO. split.
  - now rewrite (predict_keeps_model RO), (serve_keeps_model RO).
  - now apply serve_keeps_model.
Qed.

(** C9: [health] takes no request data; on every model object it
    returns the body [{"status": "healthy"}], sent with status 200,
    leaves the model object untouched and never raises. *)
Theorem health_is_static s :
  health s = (inr (JObj [("status", JStr "healthy")]), s)
  /\ respond (fst (health s)) = healthy
  /\ forall rqs,
       serve (GET_health :: rqs) s
       = (healthy :: fst (serve rqs s), snd (serve rqs s)).
Proof.
  split; [reflexivity|]. split; [reflexivity|].
  intros rqs. now rewrite serve_cons.
Qed.
End WithModel.

Lemma startup_without_artifact_is_fatal_witness :
  path_exists (join "/app" MODEL_PATH) (Fs ∅ ∅) = false
  /\ @run smoker_model {| cwd := "/app"; disk := Fs ∅ ∅ |}
       [GET_health; POST_predict request0]
     = inl (FileNotFoundError "Model file not found at models/model.pkl").
Proof.
  split; [reflexivity|].
  apply (@startup_without_artifact_is_fatal smoker_model
           {| cwd := "/app"; disk := Fs ∅ ∅ |}).
  reflexivity.
Defined.



Lemma predict_failure_is_http_500_witness :
  respond (fst (@predict string_label_model request0 tt))
  = server_error "invalid literal for int() with base 10: 'sick'".
Proof.
  apply (@predict_failure_is_http_500 string_label_model request0 tt
           (ValueError "invalid literal for int() with base 10: 'sick'") tt).
  eapply (@int_raises string_label_model); reflexivity.
Defined.

(** The hypothesis of [predict_is_deterministic] is needed: on a model
    object that its own methods change, the same record gets two
    different answers. *)
Example changing_model_changes_answers :
  fst (@predict alternating_model request0 false)
  <> fst (@predict alternating_model request0
            (snd (@predict alternating_model request0 false))).
Proof. vm_compute. discriminate. Qed.

Lemma predict_is_deterministic_witness :
  fst (@predict smoker_model request0
         (snd (@serve smoker_model [GET_health]
                 (snd (@predict smoker_model request0 tt)))))
  = fst (@predict smoker_model request0 tt).
Proof.
  apply (@predict_is_deterministic smoker_model request0 [GET_health] tt).
  intros df s. split; reflexivity.
Defined.

End ServingSpec.

(* ===================================================================== *)
(** * The label encoder: theorems *)
(* ===================================================================== *)

Module EncoderSpec.
Import Py Pandas Sklearn.

(** A three-way comparison that orders its type: equivalent values
    ([Eq]) need not be identical (the floats [0.0] and [-0.0]). *)
Class CmpOrder {L : Type} (cmp : L -> L -> comparison) : Prop := {
  cmp_refl : forall x, cmp x x = Eq;
  cmp_flip : forall x y, cmp y x = CompOpp (cmp x y);
  cmp_lt_trans : forall x y z, cmp x y = Lt -> cmp y z = Lt -> cmp x z = Lt;
  cmp_lt_eq : forall x y z, cmp x y = Lt -> cmp y z = Eq -> cmp x z = Lt
}.

(** [ranks cmp xs codes]: [codes] numbers the values of [xs] by their
    position among the distinct values of [xs] in ascending order. *)
Definition ranks {L : Type} (cmp : L -> L -> comparison)
    (xs : list L) (codes : list Z) : Prop :=
  exists classes,
    StronglySorted (fun a b => cmp a b = Lt) classes
    /\ (forall c, In c classes -> In c xs)
    /\ Forall2 (fun x k =>
                  0 <= k
                  /\ exists c, nth_error classes (Z.to_nat k) = Some c
                               /\ cmp x c = Eq) xs codes.

(** The reading the specification gives: the distinct values in the order
    they first appear, numbered from zero. *)
Section FirstSeen.
Context {L : Type} (eqb : L -> L -> bool).

Fixpoint position (x : L) (seen : list L) : option Z :=
  match seen with
  | [] => None
  | y :: seen' =>
      if eqb x y then Some 0
      else option_map Z.succ (position x seen')
  end.

(** [seen] holds the distinct values met so far, oldest first. *)
Fixpoint first_seen_from (seen : list L) (xs : list L) : list Z :=
  match xs with
  | [] => []
  | x :: xs' =>
      match position x seen with
      | Some k => k :: first_seen_from seen xs'
      | None =>
          Z.of_nat (length seen) :: first_seen_from (seen ++ [x])%list xs'
      end
  end.

Definition first_seen_codes (xs : list L) : list Z :=
  first_seen_from [] xs.
End FirstSeen.

Section Generic.
Context {L : Type} (cmp : L -> L -> comparison) `{!CmpOrder cmp}.

Let lt : L -> L -> Prop := fun a b => cmp a b = Lt.

Lemma cmp_gt_lt x y : cmp x y = Gt -> cmp y x = Lt.
Proof. intros H. now rewrite cmp_flip, H. Qed.

Lemma cmp_eq_sym x y : cmp x y = Eq -> cmp y x = Eq.
Proof. intros H. now rewrite cmp_flip, H. Qed.

Lemma insert_unique_in x l z :
  In z (insert_unique cmp x l) -> z = x \/ In z l.
Proof.
  induction l as [|y l IH]; simpl.
  - intros [->|[]]. now left.
  - destruct (cmp x y); simpl; intuition.
Qed.

Lemma insert_unique_keeps x l z :
  In z l -> In z (insert_unique cmp x l).
Proof.
  induction l as [|y l IH]; simpl; [tauto|].
  destruct (cmp x y); simpl; intuition.
Qed.

Lemma insert_unique_has x l :
  exists c, In c (insert_unique cmp x l) /\ cmp x c = Eq.
Proof.
  induction l as [|y l (c & Hin & Hc)]; simpl.
  - exists x. split; [now left|apply cmp_refl].
  - destruct (cmp x y) eqn:Hxy.
    + exists y. split; [now left|assumption].
    + exists x. split; [now left|apply cmp_refl].
    + exists c. split; [now right|assumption].
Qed.

Lemma insert_unique_sorted x l :
  StronglySorted lt l -> StronglySorted lt (insert_unique cmp x l).
Proof.
  induction 1 as [|y l Hs IH Hy]; simpl.
  - repeat constructor.
  - destruct (cmp x y) eqn:Hxy.
    + now constructor.
    + constructor; [now constructor|].
      constructor; [assumption|].
      rewrite List.Forall_forall in Hy. apply List.Forall_forall. intros z Hz.
      eapply cmp_lt_trans; [exact Hxy|]. now apply Hy.
    + constructor; [assumption|].
      apply List.Forall_forall. intros z Hz.
      apply insert_unique_in in Hz as [->|Hz].
      * now apply cmp_gt_lt.
      * rewrite List.Forall_forall in Hy. now apply Hy.
Qed.

Lemma unique_sorted xs : StronglySorted lt (unique cmp xs).
Proof.
  induction xs as [|x xs IH]; simpl; [constructor|].
  now apply insert_unique_sorted.
Qed.

Lemma unique_in xs c : In c (unique cmp xs) -> In c xs.
Proof.
  induction xs as [|x xs IH]; simpl; [tauto|].
  intros H. apply insert_unique_in in H as [->|H]; auto.
Qed.

Lemma unique_has xs x :
  In x xs -> exists c, In c (unique cmp xs) /\ cmp x c = Eq.
Proof.
  induction xs as [|y xs IH]; simpl; [tauto|].
  intros [->|Hin].
  - apply insert_unique_has.
  - destruct (IH Hin) as (c & Hc & Hxc).
    exists c. split; [now apply insert_unique_keeps|assumption].
Qed.

Lemma searchsorted_nonneg classes x : 0 <= searchsorted cmp classes x.
Proof.
  induction classes as [|y l IH]; simpl; [lia|].
  destruct (cmp x y); lia.
Qed.

(** On ascending classes, a value lands on the class it is equivalent
    to. *)
Lemma searchsorted_finds classes x c :
  StronglySorted lt classes ->
  In c classes ->
  cmp x c = Eq ->
  nth_error classes (Z.to_nat (searchsorted cmp classes x)) = Some c.
Proof.
  induction 1 as [|y l Hs IH Hy]; simpl; [tauto|].
  intros [->|Hin] Hxc.
  - now rewrite Hxc.
  - rewrite List.Forall_forall in Hy.
    assert (Hyx : cmp y x = Lt).
    { eapply cmp_lt_eq; [apply (Hy c Hin)|now apply cmp_eq_sym]. }
    rewrite (cmp_flip y x), Hyx. simpl.
    pose proof (searchsorted_nonneg l x) as Hk.
    replace (Z.to_nat (1 + searchsorted cmp l x))
      with (S (Z.to_nat (searchsorted cmp l x))) by lia.
    simpl. now apply IH.
Qed.

Lemma encode_ranks xs : ranks cmp xs (encode cmp xs).
Proof.
  exists (unique cmp xs). split; [apply unique_sorted|].
  split; [apply unique_in|].
  unfold encode.
  assert (H : forall ys,
             (forall y, In y ys -> In y xs) ->
             Forall2 (fun x k =>
                        0 <= k
                        /\ exists c,
                             nth_error (unique cmp xs) (Z.to_nat k) = Some c
                             /\ cmp x c = Eq)
                     ys (map (searchsorted cmp (unique cmp xs)) ys)).
  { induction ys as [|y ys IH]; intros Hsub; simpl; constructor.
    - split; [apply searchsorted_nonneg|].
      destruct (unique_has xs y (Hsub y (or_introl eq_refl)))
        as (c & Hc & Hyc).
      exists c. split; [|assumption].
      now apply searchsorted_finds; [apply unique_sorted| |].
    - apply IH. intros z Hz. apply Hsub. now right. }
  apply H. auto.
Qed.
End Generic.

(** ** The three orders the encoder sorts by *)

Lemma cmp_order_of_spec {L : Type} (cmp : L -> L -> comparison)
    (lt : L -> L -> Prop) :
  StrictOrder lt ->
  (forall x y, CompareSpec (x = y) (lt x y) (lt y x) (cmp x y)) ->
  CmpOrder cmp.
Proof.
  intros [Hirr Htr] spec.
  assert (lt_of : forall x y, cmp x y = Lt -> lt x y).
  { intros x y H. destruct (spec x y); try discriminate H. assumption. }
  assert (of_lt : forall x y, lt x y -> cmp x y = Lt).
  { intros x y H. destruct (spec x y) as [->|_|H']; [|reflexivity|].
    - now apply Hirr in H.
    - exfalso. apply (Hirr x). now apply (Htr x y x). }
  split.
  - intros x. destruct (spec x x) as [_|H|H]; [reflexivity| |];
      now apply Hirr in H.
  - intros x y.
    destruct (spec x y) as [->|H|H]; simpl.
    + destruct (spec y y) as [_|H|H]; [reflexivity| |]; now apply Hirr in H.
    + destruct (spec y x) as [->|H'|H']; [now apply Hirr in H| |reflexivity].
      exfalso. apply (Hirr x). now apply (Htr x y x).
    + now apply of_lt.
  - intros x y z H1 H2. apply of_lt.
    apply (Htr x y z); now apply lt_of.
  - intros x y z H1 H2. destruct (spec y z) as [->|_|_];
      try discriminate H2. assumption.
Qed.

#[export] Instance int_order : CmpOrder Z.compare.
Proof.
  apply (cmp_order_of_spec Z.compare Z.lt);
    [apply Z.lt_strorder|apply Z.compare_spec].
Qed.

#[export] Instance str_order : CmpOrder String_as_OT.compare.
Proof.
  apply (cmp_order_of_spec String_as_OT.compare String_as_OT.lt);
    [apply String_as_OT.lt_strorder|apply String_as_OT.compare_spec].
Qed.

(** A float's place in the order, as a triple compared left to right:
    the kind (negative infinity, negative, zero, positive, positive
    infinity, NaN), then the exponent, then the mantissa. *)
Definition sf_key (x : spec_float) : Z * Z * Z :=
  match x with
  | S754_nan => (3, 0, 0)
  | S754_infinity false => (2, 0, 0)
  | S754_infinity true => (-2, 0, 0)
  | S754_zero _ => (0, 0, 0)
  | S754_finite false m e => (1, e, Z.pos m)
  | S754_finite true m e => (-1, - e, Z.neg m)
  end.

Definition lex3 (a b : Z * Z * Z) : comparison :=
  match a, b with
  | (a1, a2, a3), (b1, b2, b3) =>
      match (a1 ?= b1)%Z with
      | Eq => match (a2 ?= b2)%Z with
              | Eq => (a3 ?= b3)%Z
              | c => c
              end
      | c => c
      end
  end.

Ltac by_cases_on_compare :=
  unfold lex3 in *;
  repeat match goal with
         | p : (Z * Z * Z)%type |- _ => destruct p as [[? ?] ?]
         end;
  repeat match goal with
         | H : context [(?a ?= ?b)%Z] |- _ => destruct (Z.compare_spec a b)
         | |- context [(?a ?= ?b)%Z] => destruct (Z.compare_spec a b)
         end;
  simpl in *; try discriminate; try reflexivity; try lia.

#[export] Instance lex3_order : CmpOrder lex3.
Proof. split; intros; by_cases_on_compare. Qed.

Lemma sf_cmp_key x y : sf_cmp x y = lex3 (sf_key x) (sf_key y).
Proof.
  destruct x as [[|]|[|]| |[|] m1 e1], y as [[|]|[|]| |[|] m2 e2];
    try reflexivity; unfold sf_cmp, SFcompare, sf_key, lex3.
  change (-1 ?= -1)%Z with Eq. rewrite Z.compare_opp.
  rewrite (Z.compare_antisym e1 e2).
  destruct (e1 ?= e2)%Z; reflexivity.
Qed.

Lemma cmp_order_preimage {A B : Type} (f : A -> B)
    (cmp : B -> B -> comparison) :
  CmpOrder cmp -> CmpOrder (fun x y => cmp (f x) (f y)).
Proof.
  intros O. split; intros.
  - apply cmp_refl.
  - apply cmp_flip.
  - eapply cmp_lt_trans; eassumption.
  - eapply cmp_lt_eq; eassumption.
Qed.

#[export] Instance float_order : CmpOrder float_cmp.
Proof.
  apply (cmp_order_preimage Prim2SF sf_cmp).
  split; intros; rewrite ?sf_cmp_key in *.
  - apply cmp_refl.
  - apply cmp_flip.
  - eapply cmp_lt_trans; eassumption.
  - eapply cmp_lt_eq; eassumption.
Qed.

#[export] Instance bool_order : CmpOrder Bool.compare.
Proof.
  split.
  - intros []; reflexivity.
  - intros [] []; reflexivity.
  - intros [] [] []; cbv; congruence.
  - intros [] [] []; cbv; congruence.
Qed.

#[export] Instance option_order {A : Type} (cmp : A -> A -> comparison) :
  CmpOrder cmp -> CmpOrder (option_cmp cmp).
Proof.
  intros O. split.
  - intros [a|]; simpl; [apply cmp_refl|reflexivity].
  - intros [a|] [b|]; simpl; try reflexivity. apply cmp_flip.
  - intros [a|] [b|] [c|]; simpl; try congruence. apply cmp_lt_trans.
  - intros [a|] [b|] [c|]; simpl; try congruence. apply cmp_lt_eq.
Qed.

(** ** The encoder on a column *)

Definition column_ranks (c : column) (codes : list Z) : Prop :=
  match c with
  | BoolCol xs => ranks Bool.compare xs codes
  | IntCol xs => ranks Z.compare xs codes
  | FloatCol xs => ranks float_cmp xs codes
  | StrCol xs => ranks String_as_OT.compare xs codes
  | StrNaCol xs => ranks (option_cmp String_as_OT.compare) xs codes
  | BoolNaCol xs => ranks (option_cmp Bool.compare) xs codes
  end.

(** A column with a row is encoded as an integer column. *)
Lemma codes_column_rows c codes :
  col_len c <> 0%nat -> codes_column c codes = IntCol codes.
Proof.
  intros H. unfold codes_column.
  destruct (Nat.eqb_spec (col_len c) 0) as [E|_]; [contradiction|].
  now rewrite andb_false_r.
Qed.

Lemma fit_transform_ranks c :
  exists codes,
    fit_transform c = codes_column c codes /\ column_ranks c codes.
Proof.
  exists (label_codes c). split; [reflexivity|].
  destruct c as [xs|xs|xs|xs|xs|xs]; simpl;
    apply encode_ranks; typeclasses eauto.
Qed.

Lemma getitem_has_column df name c :
  getitem df name = inr c -> has_column name df = true.
Proof.
  unfold has_column, columns.
  induction df as [|[n c'] df IH]; simpl; [discriminate|].
  rewrite (String.eqb_sym name n).
  destruct (String.eqb n name); simpl; auto.
Qed.

Lemma setitem_columns df name c c' :
  getitem df name = inr c -> columns (setitem df name c') = columns df.
Proof.
  unfold columns.
  induction df as [|[n c0] df IH]; simpl; [discriminate|].
  destruct (String.eqb n name); simpl; [reflexivity|].
  intros H. now rewrite IH.
Qed.

Lemma getitem_setitem df name c :
  getitem (setitem df name c) name = inr c.
Proof.
  induction df as [|[n c0] df IH]; simpl.
  - now rewrite String.eqb_refl.
  - destruct (String.eqb n name) eqn:E; simpl; now rewrite E.
Qed.

End EncoderSpec.

(* ===================================================================== *)
(** * The training job: theorems *)
(* ===================================================================== *)

Module TrainingSpec.
Import Py Pandas Sklearn Eff Train.

(** The labels [train_model] drops that [df] does not have. *)
Definition missing_labels (df : DataFrame) : list string :=
  List.filter (fun l => negb (has_column l df)) ["target"; "patient_id"].

Definition drop_error (df : DataFrame) : exn :=
  KeyError (repr_list (missing_labels df) +:+ " not found in axis").

(** A computation that leaves the file system as it was, whether it
    returns or raises, and writes to the standard output nothing but the
    lines of the records it logs. *)
Definition keeps_files {A} (m : M world A) : Prop :=
  forall w,
    w_fs (snd (m w)) = w_fs w
    /\ exists more,
         w_log (snd (m w)) = (w_log w ++ more)%list
         /\ w_stdout (snd (m w)) = (w_stdout w ++ map Logged more)%list.

Lemma keeps_pure {A} (a : A) : keeps_files (pure a).
Proof.
  intros w. split; [reflexivity|]. exists []. simpl.
  now rewrite !app_nil_r.
Qed.

Lemma keeps_lift {A} (r : result A) : keeps_files (lift r).
Proof.
  intros w. split; [reflexivity|]. exists []. simpl.
  now rewrite !app_nil_r.
Qed.

Lemma keeps_logging msg args : keeps_files (logging_info msg args).
Proof. intros w. split; [reflexivity|]. now exists [Info msg args]. Qed.

Lemma keeps_open_read p : keeps_files (open_read p).
Proof.
  intros w. split; [reflexivity|]. exists []. simpl.
  now rewrite !app_nil_r.
Qed.

Lemma keeps_seq {A B} (m : M world A) (k : A -> M world B) :
  keeps_files m -> (forall a, keeps_files (k a)) -> keeps_files (seq m k).
Proof.
  intros Hm Hk w. unfold seq. specialize (Hm w).
  destruct (m w) as [[e|a] w1]; simpl in *; [exact Hm|].
  destruct (Hk a w1) as (Hf & more2 & Hl2 & Ho2).
  destruct Hm as (Hf1 & more1 & Hl1 & Ho1).
  split; [congruence|]. exists (more1 ++ more2)%list.
  rewrite Hl2, Ho2, Hl1, Ho1, map_app, !app_assoc. now split.
Qed.

Create HintDb keeps.
#[local] Hint Resolve keeps_pure keeps_lift keeps_logging keeps_open_read
  : keeps.

Ltac keeps :=
  repeat first
    [ apply keeps_seq; [|intros ?]
    | solve [auto with keeps] ].

Section WithLibs.
Context {libs : Libs}.

Lemma keeps_encode_categorical df : keeps_files (encode_categorical df).
Proof. unfold encode_categorical. destruct (has_column _ _); keeps. Qed.

Lemma keeps_load_data : keeps_files load_data.
Proof.
  unfold load_data, pd_read_csv. keeps. apply keeps_encode_categorical.
Qed.

Lemma keeps_train_model df : keeps_files (train_model df).
Proof. unfold train_model. keeps. Qed.

Lemma drop_missing df :
  has_column "target" df = false \/ has_column "patient_id" df = false ->
  drop df ["target"; "patient_id"] = inl (drop_error df).
Proof.
  unfold drop, drop_error, missing_labels. cbn [List.filter].
  destruct (has_column "target" df), (has_column "patient_id" df);
    cbn [negb]; intros [H|H]; try discriminate H; reflexivity.
Qed.

(** The feature split fails exactly when one of the two labels names no
    column. *)
Lemma drop_raises_iff df :
  (exists e, drop df ["target"; "patient_id"] = inl e)
  <-> has_column "target" df = false \/ has_column "patient_id" df = false.
Proof.
  split.
  - intros [e H]. unfold drop in H. cbn [List.filter] in H.
    destruct (has_column "target" df); [|now left].
    destruct (has_column "patient_id" df); [|now right].
    discriminate H.
  - intros H. exists (drop_error df). now apply drop_missing.
Qed.

Lemma train_model_missing_column df w :
  has_column "target" df = false \/ has_column "patient_id" df = false ->
  train_model df w
  = (inl (drop_error df),
     World (w_fs w) (w_log w ++ [Info "Training model" []])
       (w_stdout w ++ [Logged (Info "Training model" [])])).
Proof.
  intros H. unfold train_model, seq, logging_info, lift. simpl.
  now rewrite (drop_missing df H).
Qed.

(** A run whose load or fit step raises stops there: the exception is
    the run's, and no file or directory was touched. *)
Lemma load_failure_aborts w e w1 :
  load_data w = (inl e, w1) ->
  train_and_save_model w = (inl e, w1) /\ w_fs w1 = w_fs w.
Proof.
  intros Hl. split.
  - unfold train_and_save_model, seq. now rewrite Hl.
  - pose proof (keeps_load_data w) as [Hf _]. now rewrite Hl in Hf.
Qed.

Lemma fit_failure_aborts w df w1 e w2 :
  load_data w = (inr df, w1) ->
  train_model df w1 = (inl e, w2) ->
  train_and_save_model w = (inl e, w2) /\ w_fs w2 = w_fs w.
Proof.
  intros Hl Ht. split.
  - unfold train_and_save_model, seq. now rewrite Hl, Ht.
  - pose proof (keeps_load_data w) as [Hf _]. rewrite Hl in Hf.
    pose proof (keeps_train_model df w1) as [Hf' _]. rewrite Ht in Hf'.
    simpl in *. congruence.
Qed.

Lemma missing_column_aborts w df w1 :
  load_data w = (inr df, w1) ->
  has_column "target" df = false \/ has_column "patient_id" df = false ->
  exists w2,
    train_and_save_model w = (inl (drop_error df), w2)
    /\ w_fs w2 = w_fs w
    /\ files (w_fs w2) !! MODEL_PATH = files (w_fs w) !! MODEL_PATH.
Proof.
  intros Hl Hm. eexists.
  destruct (fit_failure_aborts w df w1 _ _ Hl
              (train_model_missing_column df w1 Hm)) as [Hr Hf].
  split; [exact Hr|]. split; [exact Hf|]. now rewrite Hf.
Qed.

(** C5: when the loaded dataset has no [target] column, the run aborts
    with the [KeyError] of the feature split and the file system is
    what it was, so the artifact is neither written nor overwritten.
    More generally the persist step runs only after [train_model]
    returns: whenever [train_model] raises, the run raises the same
    exception and the file system is what it was. *)
Theorem missing_target_aborts_before_persist w df w1 :
  load_data w = (inr df, w1) ->
  (has_column "target" df = false ->
   exists w2,
     train_and_save_model w = (inl (drop_error df), w2)
     /\ exn_class (drop_error df) = "KeyError"
     /\ w_fs w2 = w_fs w
     /\ files (w_fs w2) !! MODEL_PATH = files (w_fs w) !! MODEL_PATH)
  /\ (forall e w2,
        train_model df w1 = (inl e, w2) ->
        train_and_save_model w = (inl e, w2)
        /\ w_fs w2 = w_fs w
        /\ files (w_fs w2) !! MODEL_PATH = files (w_fs w) !! MODEL_PATH).
Proof.
  intros Hl. split.
  - intros Ht.
    destruct (missing_column_aborts w df w1 Hl (or_introl Ht))
      as (w2 & Hr & Hf & Hm).
    exists w2. repeat split; assumption.
  - intros e w2 Ht.
    destruct (fit_failure_aborts w df w1 e w2 Hl Ht) as [Hr Hf].
    split; [exact Hr|]. split; [exact Hf|]. now rewrite Hf.
Qed.

(** C10: when the loaded dataset has no [patient_id] column, the run
    aborts with the [KeyError] of the feature split and the file system
    is what it was. The split is one [drop] of both labels, and it
    raises exactly when [target] or [patient_id] names no column. *)
Theorem missing_patient_id_aborts_before_persist w df w1 :
  load_data w = (inr df, w1) ->
  has_column "patient_id" df = false ->
  (exists w2,
      train_and_save_model w = (inl (drop_error df), w2)
      /\ exn_class (drop_error df) = "KeyError"
      /\ w_fs w2 = w_fs w
      /\ files (w_fs w2) !! MODEL_PATH = files (w_fs w) !! MODEL_PATH)
  /\ (forall df' : DataFrame,
        (exists e, drop df' ["target"; "patient_id"] = inl e)
        <-> has_column "target" df' = false
            \/ has_column "patient_id" df' = false).
Proof.
  intros Hl Hp. split.
  - destruct (missing_column_aborts w df w1 Hl (or_intror Hp))
      as (w2 & Hr & Hf & Hm).
    exists w2. repeat split; assumption.
  - apply drop_raises_iff.
Qed.

(** C3 (as amended): when the loaded dataset has a [smoker] column,
    [load_data] replaces it, in place, by integer codes, and the code of
    a value is its position, counted from zero, among the distinct
    values of the column in ascending order ([False] before [True],
    integers and floats by value, strings lexicographically, missing
    cells last). The codes fill an integer column whenever the column
    has a row. No other column changes name or place. *)
Theorem smoker_codes_follow_sorted_labels w raw df col :
  files (w_fs w) !! DATA_PATH = Some raw ->
  read_csv raw (chardet_detect raw) = inr df ->
  getitem df "smoker" = inr col ->
  exists codes w',
    load_data w = (inr (setitem df "smoker" (codes_column col codes)), w')
    /\ (col_len col <> 0%nat -> codes_column col codes = IntCol codes)
    /\ EncoderSpec.column_ranks col codes
    /\ columns (setitem df "smoker" (codes_column col codes)) = columns df
    /\ getitem (setitem df "smoker" (codes_column col codes)) "smoker"
       = inr (codes_column col codes).
Proof.
  intros Hfile Hcsv Hcol.
  destruct (EncoderSpec.fit_transform_ranks col) as (codes & Hft & Hr).
  exists codes. eexists.
  split; [|split; [apply EncoderSpec.codes_column_rows|split; [exact Hr|split]]].
  - unfold load_data, pd_read_csv, seq, logging_info, open_read,
      read_bytes, read_named, lift. cbn [w_fs w_log w_stdout].
    rewrite Hfile. unfold ret. cbv beta iota. rewrite Hcsv.
    unfold encode_categorical, seq, logging_info, lift, pure.
    rewrite (EncoderSpec.getitem_has_column df "smoker" col Hcol).
    rewrite Hcol, Hft. reflexivity.
  - now apply EncoderSpec.setitem_columns with (c := col).
  - apply EncoderSpec.getitem_setitem.
Qed.
End WithLibs.

(** ** Concrete runs *)

(** The two training rows of the specification's scenario. *)
Definition scenario : DataFrame :=
  [ ("age", FloatCol [45%float; 30%float]);
    ("bmi", FloatCol [0x1.c19999999999ap+4%float (* 28.1 *); 22%float]);
    ("blood_pressure", FloatCol [130%float; 110%float]);
    ("cholesterol", FloatCol [210%float; 170%float]);
    ("glucose", FloatCol [95%float; 85%float]);
    ("smoker", StrCol ["yes"; "no"]);
    ("target", IntCol [1; 0]);
    ("patient_id", IntCol [1; 2]) ].

Definition without (name : string) (df : DataFrame) : DataFrame :=
  List.filter (fun nc => negb (String.eqb (fst nc) name)) df.

(** Libraries that parse every file as [df] and whose fitted model is the
    training data itself. *)
Definition parsing_as (df : DataFrame) : Libs :=
  {| Estimator := DataFrame * column;
     chardet_detect := fun _ => Some "ascii";
     read_csv := fun _ _ => inr df;
     LogisticRegression_fit := fun _ X y => inr (X, y);
     joblib_dump := fun _ => [x80; x04] |}.

(** A machine holding the dataset and an older artifact. *)
Definition disk0 : fs :=
  Fs (<[DATA_PATH := [x61; x2c; x62]]> (<[MODEL_PATH := [x00]]> ∅))
     {[ "/opt"; "/opt/airflow"; "/opt/airflow/data"; "/opt/airflow/models" ]}.

Definition world0 : world := World disk0 [] [].

(** The world [load_data] leaves from [w] when it parsed and encoded a
    frame of the given shape. *)
Definition loaded (w : world) (shape : nat * nat) : world :=
  let records :=
    [ Info "Loading data from %s" [AStr DATA_PATH];
      Info "Data loaded successfully. Shape: %s" [AShape shape];
      Info "Categorical encoding applied" [] ] in
  World (w_fs w) (w_log w ++ records) (w_stdout w ++ map Logged records).

(** A fresh machine: the dataset only. *)
Definition world1 : world :=
  World (Fs {[ DATA_PATH := [x61; x2c; x62] ]}
            {[ "/opt"; "/opt/airflow"; "/opt/airflow/data" ]}) [] [].

(** A full run writes the artifact, creating its directory. *)
Example run_writes_artifact :
  let r := @train_and_save_model (parsing_as scenario) world1 in
  fst r = inr tt
  /\ files (w_fs (snd r)) !! MODEL_PATH = Some [x80; x04]
  /\ isdir "/opt/airflow/models" (w_fs (snd r)) = true
  /\ In (Printed "Model saved successfully!") (w_stdout (snd r)).
Proof. vm_compute. repeat split; auto 10. Qed.

Example scenario_is_encoded :
  fst (@load_data (parsing_as scenario) world0)
  = inr (setitem scenario "smoker" (IntCol [1; 0])).
Proof. vm_compute. reflexivity. Qed.

Lemma missing_target_aborts_before_persist_witness :
  exists w2,
    @train_and_save_model (parsing_as (without "target" scenario)) world0
    = (inl (KeyError "['target'] not found in axis"), w2)
    /\ files (w_fs w2) !! MODEL_PATH = Some [x00].
Proof.
  destruct (@missing_target_aborts_before_persist
              (parsing_as (without "target" scenario)) world0
              (setitem (without "target" scenario) "smoker" (IntCol [1; 0]))
              (loaded world0 (2, 7)%nat)
              eq_refl) as [H _].
  destruct (H eq_refl) as (w2 & Hr & _ & _ & Hm).
  exists w2. split; [exact Hr|exact Hm].
Defined.

Lemma missing_patient_id_aborts_before_persist_witness :
  exists w2,
    @train_and_save_model (parsing_as (without "patient_id" scenario)) world0
    = (inl (KeyError "['patient_id'] not found in axis"), w2)
    /\ files (w_fs w2) !! MODEL_PATH = Some [x00].
Proof.
  destruct (@missing_patient_id_aborts_before_persist
              (parsing_as (without "patient_id" scenario)) world0
              (setitem (without "patient_id" scenario) "smoker"
                 (IntCol [1; 0]))
              (loaded world0 (2, 7)%nat)
              eq_refl eq_refl) as [(w2 & Hr & _ & _ & Hm) _].
  exists w2. split; [exact Hr|exact Hm].
Defined.

Lemma smoker_codes_follow_sorted_labels_witness :
  exists codes w',
    @load_data (parsing_as scenario) world0
    = (inr (setitem scenario "smoker" (IntCol codes)), w')
    /\ EncoderSpec.column_ranks (StrCol ["yes"; "no"]) codes
    /\ columns (setitem scenario "smoker" (IntCol codes)) = columns scenario
    /\ getitem (setitem scenario "smoker" (IntCol codes)) "smoker"
       = inr (IntCol codes).
Proof.
  destruct (@smoker_codes_follow_sorted_labels (parsing_as scenario) world0
              [x61; x2c; x62] scenario (StrCol ["yes"; "no"])
              eq_refl eq_refl eq_refl)
    as (codes & w' & Hl & _ & Hr & Hc & Hg).
  exists codes, w'. repeat split; assumption.
Defined.

(** C3, as first stated, fails: the codes do not follow the order in which
    the labels first appear, from whatever number the count starts. *)
Lemma codes_do_not_follow_first_appearance :
  ~ (exists base,
        forall (df : DataFrame) xs w,
          getitem df "smoker" = inr (StrCol xs) ->
          fst (encode_categorical df w)
          = inr (setitem df "smoker"
                   (IntCol (map (Z.add base)
                              (EncoderSpec.first_seen_codes String.eqb xs))))).
Proof.
  intros [base claim].
  specialize (claim [("smoker", StrCol ["yes"; "no"])] ["yes"; "no"]
                world0 eq_refl).
  vm_compute in claim. injection claim as H1 H2. destruct base; discriminate.
Qed.

End TrainingSpec.

(* ===================================================================== *)
(** * The artifact path: theorems *)
(* ===================================================================== *)

Module PathSpec.
Import Py Train.

Lemma chars_append s t :
  list_ascii_of_string (s +:+ t)
  = (list_ascii_of_string s ++ list_ascii_of_string t)%list.
Proof.
  induction s as [|a s IH]; [reflexivity|].
  change (String a s +:+ t) with (String a (s +:+ t)).
  simpl. now rewrite IH.
Qed.

Lemma append_cancel_r s1 s2 t : s1 +:+ t = s2 +:+ t -> s1 = s2.
Proof.
  intros H. apply (f_equal list_ascii_of_string) in H.
  rewrite !chars_append in H. apply app_inv_tail in H.
  apply (f_equal string_of_list_ascii) in H.
  now rewrite !string_of_list_ascii_of_string in H.
Qed.

(** C1, as first stated, fails: the two constants are different
    strings. *)
Lemma model_paths_differ : Train.MODEL_PATH <> Api.MODEL_PATH.
Proof. discriminate. Qed.

(** C1 (as amended): the training job's path constant is the serving
    endpoint's relative path constant under [/opt/airflow/]. The training
    constant names the same file from every working directory; the
    serving constant names that file exactly when the endpoint's working
    directory is [/opt/airflow]. *)
Theorem model_paths_agree_under_opt_airflow :
  Train.MODEL_PATH = "/opt/airflow/" +:+ Api.MODEL_PATH
  /\ (forall cwd, join cwd Train.MODEL_PATH = Train.MODEL_PATH)
  /\ (forall cwd,
        join cwd Api.MODEL_PATH = Train.MODEL_PATH
        <-> cwd = "/opt/airflow" \/ cwd = "/opt/airflow/").
Proof.
  split; [reflexivity|]. split; [reflexivity|].
  intros cwd. split.
  - unfold join. change (is_abs Api.MODEL_PATH) with false. cbv iota.
    destruct (String.eqb cwd "" || ends_with_slash cwd)%bool.
    + intros H. right.
      apply (append_cancel_r cwd "/opt/airflow/" Api.MODEL_PATH).
      exact H.
    + intros H. left.
      apply (append_cancel_r cwd "/opt/airflow" ("/" +:+ Api.MODEL_PATH)).
      exact H.
  - intros [->| ->]; reflexivity.
Qed.

(** The artifact a training run writes is the one the endpoint loads when
    it is started in [/opt/airflow], and from no other place. *)
Example endpoint_finds_artifact_under_opt_airflow :
  let disk := w_fs (snd (@train_and_save_model
                           (TrainingSpec.parsing_as TrainingSpec.scenario)
                           TrainingSpec.world1)) in
  @Api.import_main ServingSpec.smoker_model
    {| Api.cwd := "/opt/airflow"; Api.disk := disk |}
  = inr (@Api.Build_App ServingSpec.smoker_model tt)
  /\ @Api.import_main ServingSpec.smoker_model
       {| Api.cwd := "/app"; Api.disk := disk |}
     = inl (FileNotFoundError "Model file not found at models/model.pkl").
Proof. vm_compute. split; reflexivity. Qed.

End PathSpec.


(* ===================================================================== *)
(** * The label encoder: order, range and fixed points of the codes *)
(* ===================================================================== *)

Module EncoderOrder.
Import Py Pandas Sklearn EncoderSpec.

(** [codes] compare as the values of [xs] at the same places do: smaller
    values get smaller codes, equivalent values the same code. *)
Definition keeps_order {L : Type} (cmp : L -> L -> comparison)
    (xs : list L) (codes : list Z) : Prop :=
  forall i j x y,
    nth_error xs i = Some x ->
    nth_error xs j = Some y ->
    exists ki kj,
      nth_error codes i = Some ki
      /\ nth_error codes j = Some kj
      /\ (ki ?= kj)%Z = cmp x y.

(** [a; a+1; ...; a+m-1]. *)
Fixpoint zrange (a : Z) (m : nat) : list Z :=
  match m with
  | O => []
  | S m' => a :: zrange (a + 1) m'
  end.

(** The number of classes the encoder finds in a column. *)
Definition n_classes (c : column) : nat :=
  match c with
  | BoolCol xs => length (unique Bool.compare xs)
  | IntCol xs => length (unique Z.compare xs)
  | FloatCol xs => length (unique float_cmp xs)
  | StrCol xs => length (unique String_as_OT.compare xs)
  | StrNaCol xs => length (unique (option_cmp String_as_OT.compare) xs)
  | BoolNaCol xs => length (unique (option_cmp Bool.compare) xs)
  end.

Definition column_keeps_order (c : column) (codes : list Z) : Prop :=
  match c with
  | BoolCol xs => keeps_order Bool.compare xs codes
  | IntCol xs => keeps_order Z.compare xs codes
  | FloatCol xs => keeps_order float_cmp xs codes
  | StrCol xs => keeps_order String_as_OT.compare xs codes
  | StrNaCol xs => keeps_order (option_cmp String_as_OT.compare) xs codes
  | BoolNaCol xs => keeps_order (option_cmp Bool.compare) xs codes
  end.

Section Generic.
Context {L : Type} (cmp : L -> L -> comparison) `{!CmpOrder cmp}.

Lemma cmp_eq_l x y z : cmp x y = Eq -> cmp x z = cmp y z.
Proof.
  intros Hxy. pose proof (cmp_eq_sym cmp x y Hxy) as Hyx.
  destruct (cmp y z) eqn:Hyz.
  - destruct (cmp x z) eqn:Hxz; [reflexivity| |].
    + pose proof (cmp_lt_eq x z y Hxz (cmp_eq_sym cmp y z Hyz)). congruence.
    + pose proof (cmp_lt_eq z x y (cmp_gt_lt cmp x z Hxz) Hxy) as H.
      rewrite (cmp_flip y z), Hyz in H. discriminate.
  - destruct (cmp x z) eqn:Hxz; [| reflexivity |].
    + pose proof (cmp_lt_eq y z x Hyz (cmp_eq_sym cmp x z Hxz)). congruence.
    + pose proof (cmp_lt_trans y z x Hyz (cmp_gt_lt cmp x z Hxz)). congruence.
  - pose proof (cmp_lt_eq z y x (cmp_gt_lt cmp y z Hyz) Hyx) as H.
    now rewrite (cmp_flip z x), H.
Qed.

Lemma searchsorted_equiv classes x y :
  cmp x y = Eq -> searchsorted cmp classes x = searchsorted cmp classes y.
Proof.
  intros Hxy. induction classes as [|h l IH]; simpl; [reflexivity|].
  rewrite (cmp_eq_l x y h Hxy), IH. reflexivity.
Qed.

Lemma searchsorted_strict classes x y c :
  StronglySorted (fun a b => cmp a b = Lt) classes ->
  In c classes -> cmp x c = Eq -> cmp x y = Lt ->
  searchsorted cmp classes x < searchsorted cmp classes y.
Proof.
  induction 1 as [|h l Hs IH Hh]; simpl; [tauto|].
  intros Hc Hxc Hxy. rewrite List.Forall_forall in Hh.
  assert (Hgt : forall u, cmp h u = Lt -> cmp u h = Gt).
  { intros u Hu. now rewrite (cmp_flip h u), Hu. }
  destruct (cmp x h) eqn:Hxh.
  - assert (Hhy : cmp h y = Lt).
    { now rewrite (cmp_eq_l h x y (cmp_eq_sym cmp x h Hxh)). }
    rewrite (Hgt y Hhy). pose proof (searchsorted_nonneg cmp l y). lia.
  - exfalso. destruct Hc as [->|Hc]; [congruence|].
    pose proof (cmp_lt_trans x h c Hxh (Hh c Hc)). congruence.
  - assert (Hhx : cmp h x = Lt) by now apply cmp_gt_lt.
    rewrite (Hgt y (cmp_lt_trans h x y Hhx Hxy)).
    destruct Hc as [->|Hc]; [congruence|].
    specialize (IH Hc Hxc Hxy). lia.
Qed.

(** The code of a value among the classes of [xs] orders as the value. *)
Lemma searchsorted_compare xs x y :
  In x xs -> In y xs ->
  (searchsorted cmp (unique cmp xs) x ?= searchsorted cmp (unique cmp xs) y)%Z
  = cmp x y.
Proof.
  intros Hx Hy.
  destruct (unique_has cmp xs x Hx) as (cx & Hcx & Hxc).
  destruct (unique_has cmp xs y Hy) as (cy & Hcy & Hyc).
  pose proof (unique_sorted cmp xs) as Hs.
  destruct (cmp x y) eqn:Hxy.
  - rewrite (searchsorted_equiv _ x y Hxy). apply Z.compare_refl.
  - apply Z.compare_lt_iff.
    exact (searchsorted_strict _ x y cx Hs Hcx Hxc Hxy).
  - apply Z.compare_gt_iff.
    exact (searchsorted_strict _ y x cy Hs Hcy Hyc (cmp_gt_lt cmp x y Hxy)).
Qed.

Lemma encode_keeps_order xs : keeps_order cmp xs (encode cmp xs).
Proof.
  intros i j x y Hi Hj. unfold encode.
  exists (searchsorted cmp (unique cmp xs) x),
         (searchsorted cmp (unique cmp xs) y).
  rewrite !nth_error_map, Hi, Hj. simpl.
  split; [reflexivity|]. split; [reflexivity|].
  apply searchsorted_compare; eapply nth_error_In; eassumption.
Qed.

Lemma sorted_nth_lt (l : list L) : forall i j a b,
  StronglySorted (fun a b => cmp a b = Lt) l ->
  nth_error l i = Some a -> nth_error l j = Some b ->
  (i < j)%nat -> cmp a b = Lt.
Proof.
  induction l as [|h t IH]; intros i j a b Hs Hi Hj Hij.
  - destruct i; discriminate.
  - inversion Hs as [|? ? Hst Hh]; subst.
    destruct j as [|j]; [lia|]. simpl in Hj.
    destruct i as [|i]; simpl in Hi.
    + injection Hi as ->. rewrite List.Forall_forall in Hh.
      apply Hh. eapply nth_error_In; eassumption.
    + eapply (IH i j); eauto. lia.
Qed.

Lemma searchsorted_index xs i c :
  nth_error (unique cmp xs) i = Some c ->
  searchsorted cmp (unique cmp xs) c = Z.of_nat i.
Proof.
  intros Hi. pose proof (unique_sorted cmp xs) as Hs.
  pose proof (searchsorted_finds cmp (unique cmp xs) c c Hs
                (nth_error_In _ _ Hi) (cmp_refl c)) as Hf.
  pose proof (searchsorted_nonneg cmp (unique cmp xs) c) as Hk.
  destruct (Nat.lt_trichotomy i (Z.to_nat (searchsorted cmp (unique cmp xs) c)))
    as [Hlt|[Heq|Hgt]].
  - pose proof (sorted_nth_lt _ _ _ _ _ Hs Hi Hf Hlt) as H.
    rewrite cmp_refl in H. discriminate.
  - lia.
  - pose proof (sorted_nth_lt _ _ _ _ _ Hs Hf Hi Hgt) as H.
    rewrite cmp_refl in H. discriminate.
Qed.

(** The codes are exactly the numbers below the number of classes. *)
Lemma encode_dense xs k :
  In k (encode cmp xs) <-> 0 <= k < Z.of_nat (length (unique cmp xs)).
Proof.
  unfold encode. rewrite in_map_iff. split.
  - intros (x & <- & Hx).
    destruct (unique_has cmp xs x Hx) as (c & Hc & Hxc).
    pose proof (searchsorted_finds cmp _ x c (unique_sorted cmp xs) Hc Hxc)
      as Hf.
    pose proof (searchsorted_nonneg cmp (unique cmp xs) x).
    assert (Z.to_nat (searchsorted cmp (unique cmp xs) x)
            < length (unique cmp xs))%nat.
    { apply nth_error_Some. congruence. }
    lia.
  - intros [Hk0 Hk].
    destruct (nth_error (unique cmp xs) (Z.to_nat k)) as [c|] eqn:Hc.
    + exists c. split.
      * rewrite (searchsorted_index xs _ c Hc). lia.
      * apply (unique_in cmp). eapply nth_error_In; eassumption.
    + apply nth_error_None in Hc. lia.
Qed.

(** A column of equivalent values has one class: every code is zero. *)
Lemma encode_constant xs :
  (forall x y, In x xs -> In y xs -> cmp x y = Eq) ->
  encode cmp xs = repeat 0 (length xs).
Proof.
  intros Hall.
  assert (H : forall ys, (forall y, In y ys -> In y xs) ->
                         map (searchsorted cmp (unique cmp xs)) ys
                         = repeat 0 (length ys)).
  { induction ys as [|y ys IH]; intros Hsub; [reflexivity|]. simpl.
    rewrite IH by (intros z Hz; apply Hsub; now right). f_equal.
    assert (Hy : In y xs) by (apply Hsub; now left).
    assert (Hzero : In 0 (encode cmp xs)).
    { apply encode_dense. split; [lia|].
      destruct (unique_has cmp xs y Hy) as (c & Hc & _).
      destruct (unique cmp xs); [destruct Hc|simpl; lia]. }
    unfold encode in Hzero. apply in_map_iff in Hzero as (x & Hx & Hin).
    rewrite (searchsorted_equiv _ y x (Hall y x Hy Hin)). exact Hx. }
  apply H. auto.
Qed.
End Generic.

(** ** Integer columns that already hold codes *)

Lemma in_zrange m : forall a z,
  In z (zrange a m) <-> a <= z < a + Z.of_nat m.
Proof.
  induction m as [|m IH]; intros a z; simpl; [lia|].
  rewrite IH. lia.
Qed.

Lemma length_zrange m : forall a, length (zrange a m) = m.
Proof. induction m as [|m IH]; intros a; simpl; [reflexivity|now rewrite IH]. Qed.

Lemma NoDup_zrange m : forall a, List.NoDup (zrange a m).
Proof.
  induction m as [|m IH]; intros a; simpl; constructor; [|apply IH].
  rewrite in_zrange. lia.
Qed.

(** An ascending list of integers that fits in a window of its own
    length fills the window. *)
Lemma sorted_bounded_is_range (l : list Z) : forall a,
  StronglySorted (fun x y => (x ?= y)%Z = Lt) l ->
  (forall z, In z l -> a <= z < a + Z.of_nat (length l)) ->
  l = zrange a (length l).
Proof.
  induction l as [|h t IH]; intros a Hs Hb; [reflexivity|].
  inversion Hs as [|? ? Hst Hh]; subst. rewrite List.Forall_forall in Hh.
  assert (Ht : t = zrange (a + 1) (length t)).
  { apply IH; [assumption|]. intros z Hz.
    pose proof (Hh z Hz) as Hlt.
    pose proof (Hb h (or_introl eq_refl)).
    pose proof (Hb z (or_intror Hz)). simpl length in *.
    assert (h < z) by exact Hlt. lia. }
  simpl. rewrite <- Ht. f_equal.
  pose proof (Hb h (or_introl eq_refl)) as Hbh. simpl length in Hbh.
  destruct t as [|h' t']; [simpl in Hbh; lia|].
  assert (Hlt : h < h') by exact (Hh h' (or_introl eq_refl)).
  simpl in Ht. injection Ht as Hh' _. lia.
Qed.

Lemma searchsorted_zrange m : forall a z,
  a <= z < a + Z.of_nat m ->
  searchsorted Z.compare (zrange a m) z = z - a.
Proof.
  induction m as [|m IH]; intros a z Hz; [simpl in Hz; lia|]. simpl.
  destruct (Z.compare_spec z a) as [->|Hlt|Hgt]; [lia|lia|].
  rewrite IH by lia. lia.
Qed.

(** A list of integers that holds exactly the numbers below [n] is its
    own encoding. *)
Lemma encode_dense_fixed zs n :
  (forall k, In k zs <-> 0 <= k < Z.of_nat n) ->
  encode Z.compare zs = zs.
Proof.
  intros Hd. pose proof (unique_sorted Z.compare zs) as Hs.
  assert (Hn : (n <= length (unique Z.compare zs))%nat).
  { rewrite <- (length_zrange n 0).
    apply List.NoDup_incl_length; [apply NoDup_zrange|].
    intros k Hk. apply in_zrange in Hk.
    destruct (unique_has Z.compare zs k) as (c & Hc & Hkc).
    - apply Hd. lia.
    - apply Z.compare_eq in Hkc. now subst. }
  assert (Hr : unique Z.compare zs
               = zrange 0 (length (unique Z.compare zs))).
  { apply sorted_bounded_is_range; [exact Hs|].
    intros z Hz. apply (unique_in Z.compare) in Hz. apply Hd in Hz. lia. }
  unfold encode. transitivity (map (fun z : Z => z) zs); [|apply List.map_id].
  apply List.map_ext_in. intros z Hz. rewrite Hr.
  rewrite searchsorted_zrange; [lia|]. apply Hd in Hz. lia.
Qed.

(** ** Columns *)

Lemma fit_transform_keeps_order c :
  exists codes,
    fit_transform c = codes_column c codes /\ column_keeps_order c codes.
Proof.
  exists (label_codes c). split; [reflexivity|].
  destruct c as [xs|xs|xs|xs|xs|xs]; simpl;
    apply encode_keeps_order; typeclasses eauto.
Qed.

Lemma fit_transform_dense c :
  exists codes,
    fit_transform c = codes_column c codes
    /\ length codes = col_len c
    /\ forall k, In k codes <-> 0 <= k < Z.of_nat (n_classes c).
Proof.
  exists (label_codes c). split; [reflexivity|].
  destruct c as [xs|xs|xs|xs|xs|xs]; simpl;
    (split; [apply length_map|]); intros k; apply encode_dense;
    typeclasses eauto.
Qed.

Lemma cell_inj {A : Type} (inj : A -> scalar) :
  (forall a b, inj a = inj b -> a = b) ->
  (forall a, inj a <> SFloat PrimFloat.nan) ->
  forall x y, cell inj x = cell inj y -> x = y.
Proof.
  intros Hinj Hnan [a|] [b|]; simpl; intros H.
  - f_equal. now apply Hinj.
  - now apply Hnan in H.
  - symmetry in H. now apply Hnan in H.
  - reflexivity.
Qed.

Lemma fit_transform_constant c v :
  Forall (eq v) (values c) ->
  fit_transform c = codes_column c (repeat 0 (col_len c)).
Proof.
  intros Hall. rewrite List.Forall_forall in Hall.
  unfold fit_transform. f_equal.
  destruct c as [xs|xs|xs|xs|xs|xs]; simpl in *;
    (apply encode_constant; [typeclasses eauto|]); intros x y Hx Hy.
  - pose proof (Hall _ (in_map SBool _ _ Hx)).
    pose proof (Hall _ (in_map SBool _ _ Hy)).
    assert (x = y) by congruence. subst. apply (cmp_refl (cmp := Bool.compare)).
  - pose proof (Hall _ (in_map SInt _ _ Hx)).
    pose proof (Hall _ (in_map SInt _ _ Hy)).
    assert (x = y) by congruence. subst. apply Z.compare_refl.
  - pose proof (Hall _ (in_map SFloat _ _ Hx)).
    pose proof (Hall _ (in_map SFloat _ _ Hy)).
    assert (x = y) by congruence. subst. apply (cmp_refl (cmp := float_cmp)).
  - pose proof (Hall _ (in_map SStr _ _ Hx)).
    pose proof (Hall _ (in_map SStr _ _ Hy)).
    assert (x = y) by congruence. subst.
    apply (cmp_refl (cmp := String_as_OT.compare)).
  - pose proof (Hall _ (in_map (cell SStr) _ _ Hx)) as H1.
    pose proof (Hall _ (in_map (cell SStr) _ _ Hy)) as H2.
    assert (x = y).
    { apply (cell_inj SStr); [congruence|discriminate|congruence]. }
    subst. apply (cmp_refl (cmp := option_cmp String_as_OT.compare)).
  - pose proof (Hall _ (in_map (cell SBool) _ _ Hx)) as H1.
    pose proof (Hall _ (in_map (cell SBool) _ _ Hy)) as H2.
    assert (x = y).
    { apply (cell_inj SBool); [congruence|discriminate|congruence]. }
    subst. apply (cmp_refl (cmp := option_cmp Bool.compare)).
Qed.

End EncoderOrder.

(* ===================================================================== *)
(** * The encode step of the training job: what the codes look like *)
(* ===================================================================== *)

Module EncodeStep.
Import Py Pandas Sklearn Eff Train EncoderSpec EncoderOrder.

Lemma getitem_setitem_ne df name c n :
  n <> name -> getitem (setitem df name c) n = getitem df n.
Proof.
  intros Hn. induction df as [|[m c0] df IH]; simpl.
  - destruct (String.eqb name n) eqn:E; [|reflexivity].
    apply String.eqb_eq in E. congruence.
  - destruct (String.eqb m name) eqn:E; simpl.
    + apply String.eqb_eq in E. subst m.
      destruct (String.eqb name n) eqn:E'; [|reflexivity].
      apply String.eqb_eq in E'. congruence.
    + now rewrite IH.
Qed.

Lemma setitem_same df name c :
  getitem df name = inr c -> setitem df name c = df.
Proof.
  induction df as [|[m c0] df IH]; simpl; [discriminate|].
  destruct (String.eqb m name); [now intros [= ->]|].
  intros H. now rewrite IH.
Qed.

Lemma shape_setitem df name c c' :
  getitem df name = inr c -> col_len c' = col_len c ->
  shape (setitem df name c') = shape df.
Proof.
  intros Hg Hl. unfold shape. f_equal.
  - destruct df as [|[m c0] df]; [discriminate|]. simpl in *.
    destruct (String.eqb m name); [|reflexivity].
    injection Hg as ->. exact Hl.
  - rewrite <- !(length_map fst). fold (columns (setitem df name c')).
    fold (columns df). f_equal. now apply setitem_columns with (c := c).
Qed.

(** The step on a frame that has the column. *)
Lemma encode_categorical_applied df col w :
  getitem df "smoker" = inr col ->
  encode_categorical df w
  = (inr (setitem df "smoker" (fit_transform col)),
     World (w_fs w) (w_log w ++ [Info "Categorical encoding applied" []])
       (w_stdout w ++ [Logged (Info "Categorical encoding applied" [])])).
Proof.
  intros Hg. unfold encode_categorical, seq, lift, logging_info, pure.
  now rewrite (getitem_has_column df "smoker" col Hg), Hg.
Qed.

(** X4: Only the [smoker] column changes: every other column keeps its name,
    place and content, the frame keeps its shape, and [smoker] becomes a
    column with one cell per row.  On a column that has rows it is an
    integer column of codes; on a column without rows it is an empty
    integer column, except that an empty column of objects (what a
    dataset with a header and no record is read as) becomes an empty
    column of floats. *)
Theorem encoding_changes_only_smoker df col w :
  getitem df "smoker" = inr col ->
  exists df' enc,
    fst (encode_categorical df w) = inr df'
    /\ columns df' = columns df
    /\ shape df' = shape df
    /\ (forall n, n <> "smoker" -> getitem df' n = getitem df n)
    /\ getitem df' "smoker" = inr enc
    /\ col_len enc = col_len col
    /\ (col_len col <> 0%nat ->
        exists codes, enc = IntCol codes /\ length codes = col_len col)
    /\ (col_len col = 0%nat ->
        enc = if is_object col then FloatCol [] else IntCol []).
Proof.
  intros Hg. destruct (fit_transform_dense col) as (codes & Hft & Hlen & _).
  exists (setitem df "smoker" (fit_transform col)), (fit_transform col).
  rewrite (encode_categorical_applied df col w Hg). simpl.
  split; [reflexivity|].
  split; [now apply setitem_columns with (c := col)|].
  assert (Hcl : col_len (fit_transform col) = col_len col).
  { rewrite Hft. unfold codes_column.
    destruct (is_object col && Nat.eqb (col_len col) 0) eqn:E; simpl.
    - apply andb_true_iff in E as [_ E]. apply Nat.eqb_eq in E. now rewrite E.
    - exact Hlen. }
  split; [now apply shape_setitem with (c := col)|].
  split; [intros n Hn; now apply getitem_setitem_ne|].
  split; [apply getitem_setitem|].
  split; [exact Hcl|].
  split.
  - intros Hrows. exists codes. split; [|exact Hlen].
    rewrite Hft. now apply codes_column_rows.
  - intros Hz. rewrite Hft. unfold codes_column. rewrite Hz. simpl.
    rewrite andb_true_r. destruct (is_object col); [reflexivity|].
    rewrite Hz in Hlen. now destruct codes.
Qed.

(** X5: The codes compare as the labels do: a smaller label has a smaller
    code, equal labels have equal codes.  The codes fill an integer column
    whenever the column has rows. *)
Theorem smoker_codes_keep_label_order df col w :
  getitem df "smoker" = inr col ->
  exists codes,
    fst (encode_categorical df w)
    = inr (setitem df "smoker" (codes_column col codes))
    /\ (col_len col <> 0%nat -> codes_column col codes = IntCol codes)
    /\ column_keeps_order col codes.
Proof.
  intros Hg. destruct (fit_transform_keeps_order col) as (codes & Hft & Ho).
  exists codes. rewrite (encode_categorical_applied df col w Hg), Hft.
  split; [reflexivity|]. split; [apply codes_column_rows|exact Ho].
Qed.

(** X6: The codes are exactly the integers from zero up to the number of
    distinct labels, none skipped.  The codes fill an integer column
    whenever the column has rows. *)
Theorem smoker_codes_are_dense df col w :
  getitem df "smoker" = inr col ->
  exists codes,
    fst (encode_categorical df w)
    = inr (setitem df "smoker" (codes_column col codes))
    /\ (col_len col <> 0%nat -> codes_column col codes = IntCol codes)
    /\ forall k, In k codes <-> 0 <= k < Z.of_nat (n_classes col).
Proof.
  intros Hg. destruct (fit_transform_dense col) as (codes & Hft & _ & Hd).
  exists codes. rewrite (encode_categorical_applied df col w Hg), Hft.
  split; [reflexivity|]. split; [apply codes_column_rows|exact Hd].
Qed.

(** X7: A [smoker] column that already holds integer codes, every number
    below some [n] and no other, comes out as it went in: a column of 0
    and 1 in which both occur is not changed. *)
Theorem coded_smoker_column_is_unchanged df zs n w :
  getitem df "smoker" = inr (IntCol zs) ->
  (forall k, In k zs <-> 0 <= k < Z.of_nat n) ->
  fst (encode_categorical df w) = inr df.
Proof.
  intros Hg Hd. rewrite (encode_categorical_applied df _ w Hg). simpl.
  unfold fit_transform, codes_column. simpl.
  rewrite (encode_dense_fixed zs n Hd). f_equal. now apply setitem_same.
Qed.

(** X8: A [smoker] column that holds one value only is encoded as zeros,
    whatever the value: a dataset of smokers all marked 1 is trained
    with 0.  The zeros fill an integer column whenever the column has
    rows. *)
Theorem constant_smoker_column_becomes_zero df col v w :
  getitem df "smoker" = inr col ->
  Forall (eq v) (values col) ->
  fst (encode_categorical df w)
  = inr (setitem df "smoker" (codes_column col (repeat 0 (col_len col))))
  /\ (col_len col <> 0%nat ->
      codes_column col (repeat 0 (col_len col))
      = IntCol (repeat 0 (col_len col))).
Proof.
  intros Hg Hall. rewrite (encode_categorical_applied df col w Hg). simpl.
  rewrite (fit_transform_constant col v Hall).
  split; [reflexivity|apply codes_column_rows].
Qed.

(** ** At concrete inputs *)

Definition all_smokers : DataFrame :=
  [ ("age", FloatCol [45%float; 30%float]); ("smoker", IntCol [1; 1]);
    ("target", IntCol [1; 0]); ("patient_id", IntCol [1; 2]) ].

Definition coded : DataFrame :=
  [ ("age", FloatCol [45%float; 30%float; 51%float]);
    ("smoker", IntCol [1; 0; 1]);
    ("target", IntCol [1; 0; 1]); ("patient_id", IntCol [1; 2; 3]) ].

(** A dataset with a header and no record: every column is an empty
    column of objects. *)
Definition header_only : DataFrame :=
  [ ("age", StrCol []); ("smoker", StrCol []);
    ("target", StrCol []); ("patient_id", StrCol []) ].

(** On the dataset without records the step leaves an empty column of
    floats under [smoker]. *)
Example encoding_of_header_only_dataset :
  fst (encode_categorical header_only TrainingSpec.world0)
  = inr [ ("age", StrCol []); ("smoker", FloatCol []);
          ("target", StrCol []); ("patient_id", StrCol []) ].
Proof. reflexivity. Qed.

Lemma encoding_changes_only_smoker_witness :
  exists df' codes,
    fst (encode_categorical TrainingSpec.scenario TrainingSpec.world0)
    = inr df'
    /\ columns df' = columns TrainingSpec.scenario
    /\ shape df' = shape TrainingSpec.scenario
    /\ (forall n, n <> "smoker" ->
                  getitem df' n = getitem TrainingSpec.scenario n)
    /\ getitem df' "smoker" = inr (IntCol codes)
    /\ length codes = col_len (StrCol ["yes"; "no"]).
Proof.
  destruct (encoding_changes_only_smoker TrainingSpec.scenario
              (StrCol ["yes"; "no"]) TrainingSpec.world0 eq_refl)
    as (df' & enc & H1 & H2 & H3 & H4 & H5 & _ & H7 & _).
  destruct H7 as (codes & -> & Hl); [discriminate|].
  exists df', codes.
  exact (conj H1 (conj H2 (conj H3 (conj H4 (conj H5 Hl))))).
Defined.

Lemma smoker_codes_keep_label_order_witness :
  exists codes,
    fst (encode_categorical TrainingSpec.scenario TrainingSpec.world0)
    = inr (setitem TrainingSpec.scenario "smoker" (IntCol codes))
    /\ column_keeps_order (StrCol ["yes"; "no"]) codes.
Proof.
  destruct (smoker_codes_keep_label_order TrainingSpec.scenario
              (StrCol ["yes"; "no"]) TrainingSpec.world0 eq_refl)
    as (codes & H1 & _ & H2).
  exists codes. exact (conj H1 H2).
Defined.

Lemma smoker_codes_are_dense_witness :
  exists codes,
    fst (encode_categorical TrainingSpec.scenario TrainingSpec.world0)
    = inr (setitem TrainingSpec.scenario "smoker" (IntCol codes))
    /\ forall k, In k codes
                 <-> 0 <= k < Z.of_nat (n_classes (StrCol ["yes"; "no"])).
Proof.
  destruct (smoker_codes_are_dense TrainingSpec.scenario
              (StrCol ["yes"; "no"]) TrainingSpec.world0 eq_refl)
    as (codes & H1 & _ & H2).
  exists codes. exact (conj H1 H2).
Defined.

Lemma coded_smoker_column_is_unchanged_witness :
  fst (encode_categorical coded TrainingSpec.world0) = inr coded.
Proof.
  apply (coded_smoker_column_is_unchanged coded [1; 0; 1] 2
           TrainingSpec.world0 eq_refl).
  intros k. simpl. lia.
Defined.

Lemma constant_smoker_column_becomes_zero_witness :
  fst (encode_categorical all_smokers TrainingSpec.world0)
  = inr (setitem all_smokers "smoker" (IntCol [0; 0])).
Proof.
  apply (constant_smoker_column_becomes_zero all_smokers (IntCol [1; 1])
           (SInt 1) TrainingSpec.world0 eq_refl).
  repeat constructor.
Defined.

End EncodeStep.

(* ===================================================================== *)
(** * The training run: loading, fitting and persisting *)
(* ===================================================================== *)

Module RunSpec.
Import Py Pandas Sklearn Eff Train TrainingSpec.

(** The world once [load_data] has logged its first line: the record is
    kept and its line is on the standard output. *)
Definition after_loading (w : world) : world :=
  World (w_fs w)
    (w_log w ++ [Info "Loading data from %s" [AStr DATA_PATH]])
    (w_stdout w ++ [Logged (Info "Loading data from %s" [AStr DATA_PATH])]).

(** The world once [load_data] has parsed the frame [df]. *)
Definition after_loaded (w : world) (df : DataFrame) : world :=
  World (w_fs w)
    ((w_log w ++ [Info "Loading data from %s" [AStr DATA_PATH]])
       ++ [Info "Data loaded successfully. Shape: %s" [AShape (shape df)]])
    ((w_stdout w ++ [Logged (Info "Loading data from %s" [AStr DATA_PATH])])
       ++ [Logged (Info "Data loaded successfully. Shape: %s"
                     [AShape (shape df)])]).

(** The directories [train_and_save_model] may create. *)
Definition model_dirs : list string :=
  ["/opt"; "/opt/airflow"; "/opt/airflow/models"].

(** The labels of the feature split. *)
Definition split_labels : list string := ["target"; "patient_id"].



Lemma makedirs_model_dir f :
  makedirs (dirname MODEL_PATH) f = mkdirs model_dirs f.
Proof. reflexivity. Qed.

Lemma has_column_getitem df name :
  has_column name df = true -> exists c, getitem df name = inr c.
Proof.
  unfold has_column, columns.
  induction df as [|[n c] df IH]; simpl; [discriminate|].
  rewrite (String.eqb_sym name n).
  destruct (String.eqb n name); simpl; [now eexists|exact IH].
Qed.

Lemma getitem_filter df labels n :
  mem n labels = false ->
  getitem (List.filter (fun nc => negb (mem (fst nc) labels)) df) n
  = getitem df n.
Proof.
  intros Hn. induction df as [|[m c] df IH]; simpl; [reflexivity|].
  destruct (mem m labels) eqn:Hm; simpl.
  - destruct (String.eqb m n) eqn:E; [|exact IH].
    apply String.eqb_eq in E. congruence.
  - now rewrite IH.
Qed.

Lemma columns_filter df labels :
  columns (List.filter (fun nc => negb (mem (fst nc) labels)) df)
  = List.filter (fun n => negb (mem n labels)) (columns df).
Proof.
  unfold columns. induction df as [|[m c] df IH]; simpl; [reflexivity|].
  destruct (mem m labels); simpl; now rewrite IH.
Qed.

Section WithLibs.
Context {libs : Libs}.

Lemma load_data_read w raw :
  files (w_fs w) !! DATA_PATH = Some raw ->
  load_data w
  = match read_csv raw (chardet_detect raw) with
    | inl e => (inl e, after_loading w)
    | inr df => encode_categorical df (after_loaded w df)
    end.
Proof.
  intros Hf. unfold load_data, pd_read_csv, seq, logging_info, open_read,
    read_bytes, read_named, lift. cbn [w_fs w_log w_stdout].
  rewrite Hf. unfold ret. cbv beta iota.
  now destruct (read_csv raw (chardet_detect raw)).
Qed.


(** X2: When [pd.read_csv] rejects the file, the run raises its exception as
    it is, and nothing is written. *)
Theorem unparsable_dataset_aborts w raw e :
  files (w_fs w) !! DATA_PATH = Some raw ->
  read_csv raw (chardet_detect raw) = inl e ->
  train_and_save_model w = (inl e, after_loading w).
Proof.
  intros Hf He. unfold train_and_save_model, seq.
  now rewrite (load_data_read w raw Hf), He.
Qed.

(** X3: A dataset without a [smoker] column is returned as parsed, and the
    encoding line is not logged. *)
Theorem dataset_without_smoker_is_loaded_as_parsed w raw df :
  files (w_fs w) !! DATA_PATH = Some raw ->
  read_csv raw (chardet_detect raw) = inr df ->
  has_column "smoker" df = false ->
  load_data w = (inr df, after_loaded w df).
Proof.
  intros Hf Hcsv Hs. rewrite (load_data_read w raw Hf), Hcsv.
  unfold encode_categorical. now rewrite Hs.
Qed.

(** X9: When both labels name a column, the model is fitted, with at most
    1000 iterations, on the frame's other columns, in the frame's order
    and with their content, against the [target] column; what [fit]
    returns or raises is what [train_model] returns or raises. *)
Theorem train_model_fits_on_remaining_columns df w :
  has_column "target" df = true ->
  has_column "patient_id" df = true ->
  exists X y,
    drop df split_labels = inr X
    /\ getitem df "target" = inr y
    /\ columns X
       = List.filter (fun n => negb (mem n split_labels)) (columns df)
    /\ (forall n, mem n split_labels = false -> getitem X n = getitem df n)
    /\ fst (train_model df w) = LogisticRegression_fit 1000 X y.
Proof.
  intros Ht Hp. destruct (has_column_getitem df "target" Ht) as [y Hy].
  exists (List.filter (fun nc => negb (mem (fst nc) split_labels)) df), y.
  assert (Hd : drop df split_labels
               = inr (List.filter
                        (fun nc => negb (mem (fst nc) split_labels)) df)).
  { unfold drop, split_labels. cbn [List.filter]. now rewrite Ht, Hp. }
  split; [exact Hd|]. split; [exact Hy|].
  split; [apply columns_filter|].
  split; [intros n Hn; now apply getitem_filter|].
  unfold train_model, seq, lift, logging_info, pure.
  fold split_labels. rewrite Hd, Hy.
  now destruct (LogisticRegression_fit 1000 _ y).
Qed.

(** The persist step (lines 45-48), on a fitted model. *)
Definition persist (model : Estimator) : M world unit :=
  seq (fs_call (makedirs (dirname MODEL_PATH))) (fun _ =>
  seq (fs_call (write_bytes MODEL_PATH (joblib_dump model))) (fun _ =>
  seq (logging_info "Model saved to %s" [AStr MODEL_PATH]) (fun _ =>
  print "Model saved successfully!"))).

Lemma run_is_load_fit_persist :
  train_and_save_model
  = seq load_data (fun df => seq (train_model df) persist).
Proof. reflexivity. Qed.

(** How the persist step ends, by the outcome of its two file-system
    calls. *)
Lemma persist_cases model w :
  match mkdirs model_dirs (w_fs w) with
  | inl e => persist model w = (inl e, w)
  | inr f3 =>
      match write_bytes MODEL_PATH (joblib_dump model) f3 with
      | inl e => persist model w = (inl e, World f3 (w_log w) (w_stdout w))
      | inr f4 =>
          persist model w
          = (inr tt,
             World f4
               (w_log w ++ [Info "Model saved to %s" [AStr MODEL_PATH]])%list
               ((w_stdout w
                   ++ [Logged (Info "Model saved to %s" [AStr MODEL_PATH])])
                  ++ [Printed "Model saved successfully!"])%list)
      end
  end.
Proof.
  unfold persist, seq, fs_call. rewrite makedirs_model_dir.
  destruct (mkdirs model_dirs (w_fs w)) as [e|f3]; [reflexivity|].
  cbn [w_fs w_log w_stdout].
  now destruct (write_bytes MODEL_PATH (joblib_dump model) f3).
Qed.

Lemma write_bytes_spec p b f f' :
  write_bytes p b f = inr f' -> f' = Fs (<[p := b]> (files f)) (dirs f).
Proof.
  unfold write_bytes. destruct (isdir p f); [discriminate|].
  destruct (_ || _)%bool; [now intros [= <-]|discriminate].
Qed.





(** X12: The standard output of a run gains the lines of the records the
    run logs, in the order they are logged, and after them the line
    [Model saved successfully!] exactly when the run returns: a run that
    raises, at any step, leaves its log lines and prints nothing. *)
Theorem success_line_is_printed_only_on_success w :
  exists more,
    w_log (snd (train_and_save_model w)) = (w_log w ++ more)%list
    /\ w_stdout (snd (train_and_save_model w))
       = (w_stdout w ++ map Logged more
            ++ match fst (train_and_save_model w) with
               | inr _ => [Printed "Model saved successfully!"]
               | inl _ => []
               end)%list.
Proof.
  rewrite run_is_load_fit_persist. unfold seq.
  pose proof (keeps_load_data w) as (_ & m1 & Hl1 & Ho1).
  destruct (load_data w) as [[e|df] w1]; cbn [fst snd] in *.
  { exists m1. now rewrite List.app_nil_r. }
  pose proof (keeps_train_model df w1) as (_ & m2 & Hl2 & Ho2).
  destruct (train_model df w1) as [[e|model] w2]; cbn [fst snd] in *.
  { exists (m1 ++ m2)%list.
    rewrite Hl2, Ho2, Hl1, Ho1, List.map_app, List.app_nil_r.
    now rewrite !List.app_assoc. }
  assert (Hl : w_log w2 = (w_log w ++ (m1 ++ m2))%list).
  { now rewrite Hl2, Hl1, List.app_assoc. }
  assert (Ho : w_stdout w2 = (w_stdout w ++ map Logged (m1 ++ m2))%list).
  { now rewrite Ho2, Ho1, List.map_app, List.app_assoc. }
  pose proof (persist_cases model w2) as Hp.
  destruct (mkdirs model_dirs (w_fs w2)) as [e|f3].
  { rewrite Hp. exists (m1 ++ m2)%list. cbn [fst snd].
    now rewrite List.app_nil_r. }
  destruct (write_bytes MODEL_PATH (joblib_dump model) f3) as [e|f4];
    rewrite Hp; cbn [fst snd w_log w_stdout].
  - exists (m1 ++ m2)%list. now rewrite List.app_nil_r.
  - exists ((m1 ++ m2)
            ++ [Info "Model saved to %s" [AStr MODEL_PATH]])%list.
    rewrite Hl, Ho, !List.map_app. cbn [map].
    now rewrite <- !List.app_assoc.
Qed.
End WithLibs.

(** ** At concrete inputs *)

(** Libraries whose CSV parser rejects every file. *)
Definition rejecting : Libs :=
  {| Estimator := unit;
     chardet_detect := fun _ => None;
     read_csv := fun _ _ => inl (Exn "ParserError" "Error tokenizing data");
     LogisticRegression_fit := fun _ _ _ => inr tt;
     joblib_dump := fun _ => [] |}.




Lemma unparsable_dataset_aborts_witness :
  @train_and_save_model rejecting world0
  = (inl (Exn "ParserError" "Error tokenizing data"), after_loading world0).
Proof.
  exact (@unparsable_dataset_aborts rejecting world0 [x61; x2c; x62]
           (Exn "ParserError" "Error tokenizing data") eq_refl eq_refl).
Defined.

Lemma dataset_without_smoker_is_loaded_as_parsed_witness :
  @load_data (parsing_as (without "smoker" scenario)) world0
  = (inr (without "smoker" scenario),
     after_loaded world0 (without "smoker" scenario)).
Proof.
  exact (@dataset_without_smoker_is_loaded_as_parsed
           (parsing_as (without "smoker" scenario)) world0 [x61; x2c; x62]
           (without "smoker" scenario) eq_refl eq_refl eq_refl).
Defined.

Lemma train_model_fits_on_remaining_columns_witness :
  exists X y,
    drop scenario split_labels = inr X
    /\ getitem scenario "target" = inr y
    /\ columns X
       = List.filter (fun n => negb (mem n split_labels)) (columns scenario)
    /\ (forall n, mem n split_labels = false ->
                  getitem X n = getitem scenario n)
    /\ fst (@train_model (parsing_as scenario) scenario world0)
       = @LogisticRegression_fit (parsing_as scenario) 1000 X y.
Proof.
  exact (@train_model_fits_on_remaining_columns (parsing_as scenario)
           scenario world0 eq_refl eq_refl).
Defined.



End RunSpec.

(* ===================================================================== *)
(** * Start-up of the endpoint, and the two halves together *)
(* ===================================================================== *)

Module StartupSpec.
Import Py Pandas Eff Api ServingSpec.

Section WithModel.
Context {libs : Libs}.

Lemma artifact_exists e blob :
  files (disk e) !! join (cwd e) MODEL_PATH = Some blob ->
  path_exists (join (cwd e) MODEL_PATH) (disk e) = true.
Proof.
  intros Hf. unfold path_exists, isfile. rewrite Hf.
  apply orb_true_iff. left. apply bool_decide_eq_true. now eexists.
Qed.

(** X13: With a loadable artifact at the path, the module is imported with
    the deserialized model as its global, and the process answers every
    request it receives, one response each. *)
Theorem startup_with_artifact_serves e blob m :
  files (disk e) !! join (cwd e) MODEL_PATH = Some blob ->
  joblib_load blob = inr m ->
  import_main e = inr {| model := m |}
  /\ forall rqs,
       run e rqs = inr (fst (serve rqs m))
       /\ length (fst (serve rqs m)) = length rqs.
Proof.
  intros Hf Hl.
  assert (Hi : import_main e = inr {| model := m |}).
  { unfold import_main, read_named.
    rewrite (artifact_exists e blob Hf), Hf. simpl. now rewrite Hl. }
  split; [exact Hi|]. intros rqs. split; [|apply serve_length].
  unfold run. now rewrite Hi.
Qed.

(** X14: With a file at the path that [joblib.load] rejects, start-up fails
    with the exception of [joblib.load], not with the module's own
    message, and no request is answered. *)
Theorem startup_with_unloadable_artifact_is_fatal e blob err :
  files (disk e) !! join (cwd e) MODEL_PATH = Some blob ->
  joblib_load blob = inl err ->
  import_main e = inl err /\ forall rqs, run e rqs = inl err.
Proof.
  intros Hf Hl.
  assert (Hi : import_main e = inl err).
  { unfold import_main, read_named.
    rewrite (artifact_exists e blob Hf), Hf. simpl. now rewrite Hl. }
  split; [exact Hi|]. intros rqs. unfold run. now rewrite Hi.
Qed.
End WithModel.

(** A model loader that accepts pickles only: files that start with
    byte 0x80. *)
Definition pickle_only : Libs :=
  {| ModelObj := unit;
     joblib_load :=
       fun b => match b with
                | x80 :: _ => inr tt
                | _ => inl (Exn "UnpicklingError" "invalid load key")
                end;
     model_predict := fun _ s => (inr (IntCol [1]), s);
     model_predict_proba :=
       fun _ s => (inr [[0.25%float; 0.75%float]], s);
     int_of_str := int_of_ascii |}.

Definition app_env (blob : bytes) : env :=
  {| cwd := "/app"; disk := Fs {[ "/app/models/model.pkl" := blob ]} ∅ |}.

Lemma startup_with_artifact_serves_witness :
  @import_main pickle_only (app_env [x80; x04])
  = inr (@Build_App pickle_only tt)
  /\ forall rqs,
       @run pickle_only (app_env [x80; x04]) rqs
       = inr (fst (@serve pickle_only rqs tt))
       /\ length (fst (@serve pickle_only rqs tt)) = length rqs.
Proof.
  exact (@startup_with_artifact_serves pickle_only (app_env [x80; x04])
           [x80; x04] tt eq_refl eq_refl).
Defined.

Lemma startup_with_unloadable_artifact_is_fatal_witness :
  @import_main pickle_only (app_env [x61; x2c; x62])
  = inl (Exn "UnpicklingError" "invalid load key")
  /\ forall rqs,
       @run pickle_only (app_env [x61; x2c; x62]) rqs
       = inl (Exn "UnpicklingError" "invalid load key").
Proof.
  exact (@startup_with_unloadable_artifact_is_fatal pickle_only
           (app_env [x61; x2c; x62]) [x61; x2c; x62]
           (Exn "UnpicklingError" "invalid load key") eq_refl eq_refl).
Defined.

(** ** Training, then serving *)

Section TrainThenServe.
Context {training : Train.Libs} {serving : Api.Libs}.

(** X16: After a run that returned, the file at the training path holds the
    bytes of a fitted model, and an endpoint started in [/opt/airflow] on
    that machine reads exactly those bytes: it starts if and only if
    [joblib.load] accepts what [joblib.dump] wrote. *)
Theorem trained_artifact_is_what_the_endpoint_loads w w' :
  Train.train_and_save_model w = (inr tt, w') ->
  exists model : Train.Estimator,
    files (Train.w_fs w') !! Train.MODEL_PATH
    = Some (Train.joblib_dump model)
    /\ import_main {| cwd := "/opt/airflow"; disk := Train.w_fs w' |}
       = bind (joblib_load (Train.joblib_dump model))
           (fun m => ret {| model := m |}).
Proof.
  rewrite RunSpec.run_is_load_fit_persist. unfold seq at 1.
  destruct (Train.load_data w) as [[e|df] w1]; [discriminate|].
  unfold seq at 1.
  destruct (Train.train_model df w1) as [[e|model] w2]; [discriminate|].
  pose proof (RunSpec.persist_cases model w2) as Hp.
  destruct (mkdirs RunSpec.model_dirs (Train.w_fs w2)) as [e|f3];
    [rewrite Hp; discriminate|].
  destruct (write_bytes Train.MODEL_PATH (Train.joblib_dump model) f3)
    as [e|f4] eqn:Hw; rewrite Hp; [discriminate|].
  intros [= <-]. apply RunSpec.write_bytes_spec in Hw. subst f4.
  exists model. cbn [Train.w_fs files].
  assert (Hf : (<[Train.MODEL_PATH := Train.joblib_dump model]> (files f3)
                : gmap string bytes) !! Train.MODEL_PATH
               = Some (Train.joblib_dump model))
    by apply lookup_insert_eq.
  split; [exact Hf|].
  unfold import_main, read_named. cbn [cwd disk].
  change (join "/opt/airflow" MODEL_PATH) with Train.MODEL_PATH.
  unfold path_exists, isfile. cbn [files]. rewrite Hf.
  rewrite bool_decide_eq_true_2 by now eexists. reflexivity.
Qed.
End TrainThenServe.

Lemma trained_artifact_is_what_the_endpoint_loads_witness :
  exists model,
    files (Train.w_fs
             (snd (@Train.train_and_save_model
                     (TrainingSpec.parsing_as TrainingSpec.scenario)
                     TrainingSpec.world1)))
    !! Train.MODEL_PATH
    = Some (@Train.joblib_dump
              (TrainingSpec.parsing_as TrainingSpec.scenario) model)
    /\ @import_main pickle_only
         {| cwd := "/opt/airflow";
            disk := Train.w_fs
                      (snd (@Train.train_and_save_model
                              (TrainingSpec.parsing_as TrainingSpec.scenario)
                              TrainingSpec.world1)) |}
       = bind (@joblib_load pickle_only
                 (@Train.joblib_dump
                    (TrainingSpec.parsing_as TrainingSpec.scenario) model))
           (fun m => ret (@Build_App pickle_only m)).
Proof.
  exact (@trained_artifact_is_what_the_endpoint_loads
           (TrainingSpec.parsing_as TrainingSpec.scenario) pickle_only
           TrainingSpec.world1
           (snd (@Train.train_and_save_model
                   (TrainingSpec.parsing_as TrainingSpec.scenario)
                   TrainingSpec.world1))
           eq_refl).
Defined.

End StartupSpec.
